(** * ros2_aruco: the ArUco pose node ([ros2_aruco/aruco_node.py])

    A shallow embedding of [ArucoNode]: its state, its constructor
    ([node_init]), its two callbacks ([info_callback],
    [image_callback]), the bounded per-marker pose
    history ([defaultdict] of [deque(maxlen=window_size)]) and the inline
    smoothing (mean position, cascaded half-way slerp, renormalisation).

    Numbers: the node computes in float64; here every scalar is a real
    number, so the statements are those of exact arithmetic.  OpenCV,
    [cv_bridge] and [quaternion_from_matrix] are collaborators of the node
    and appear as fields of [Libs]; the clock is an argument of
    [image_callback]; the executor is [deliver] and [spin].  Of the
    exceptions Python can raise, the model keeps the [IndexError] of
    [tvecs[i]], [rvecs[i]] and [quats[0]]; the collaborators are total. *)

From Stdlib Require Import Ascii String Reals Lra Lia.
From stdpp Require Import gmap list.

(** ** Arrays of reals *)

Module Num.
Local Open Scope R_scope.

(** A numpy array of shape (3,). *)
Record Vector3 : Type := mkV3 { vx : R; vy : R; vz : R }.

(** A numpy array of shape (4,): a quaternion in the node's x, y, z, w order. *)
Record Quaternion : Type := mkQ { qx : R; qy : R; qz : R; qw : R }.

Definition v3_zero : Vector3 := mkV3 0 0 0.

Definition v3_add (a b : Vector3) : Vector3 :=
  mkV3 (vx a + vx b) (vy a + vy b) (vz a + vz b).

Definition v3_div (a : Vector3) (n : R) : Vector3 :=
  mkV3 (vx a / n) (vy a / n) (vz a / n).

(** [np.mean(ps, axis=0)]: the component-wise sum divided by the count. *)
Definition np_mean (ps : list Vector3) : Vector3 :=
  v3_div (fold_left v3_add ps v3_zero) (INR (length ps)).

Definition q_add (a b : Quaternion) : Quaternion :=
  mkQ (qx a + qx b) (qy a + qy b) (qz a + qz b) (qw a + qw b).

Definition q_scale (s : R) (a : Quaternion) : Quaternion :=
  mkQ (s * qx a) (s * qy a) (s * qz a) (s * qw a).

Definition q_div (a : Quaternion) (n : R) : Quaternion :=
  mkQ (qx a / n) (qy a / n) (qz a / n) (qw a / n).

(** [numpy.dot] of two arrays of shape (4,). *)
Definition q_dot (a b : Quaternion) : R :=
  qx a * qx b + qy a * qy b + qz a * qz b + qw a * qw b.

(** [np.linalg.norm]. *)
Definition q_norm (a : Quaternion) : R := sqrt (q_dot a a).

(** ** [tf_transformations.quaternion_slerp] *)

(** [_EPS = numpy.finfo(float).eps * 4.0], that is 4 * 2^-52. *)
Definition _EPS : R := 4 / 2 ^ 52.

(** [tf_transformations.unit_vector]: the array over its Euclidean length. *)
Definition unit_vector (a : Quaternion) : Quaternion := q_div a (sqrt (q_dot a a)).

(** Modelled from the spec: [tf_transformations.quaternion_slerp] is a
    function of a third-party package and is not part of the repository's
    sources.  The spec describes it as the spherical interpolation between
    the running estimate and the next quaternion along the shortest
    great-circle arc, flipping the sign of the second operand when the dot
    product is negative; the definition below is that interpolation, with
    the package's guards: both operands are first scaled to unit length,
    fractions 0 and 1 return an endpoint, and (anti)parallel operands or a
    vanishing angle return the first operand. *)
Definition quaternion_slerp (quat0 quat1 : Quaternion) (fraction : R) : Quaternion :=
  let q0 := unit_vector quat0 in
  let q1 := unit_vector quat1 in
  if Req_dec_T fraction 0 then q0
  else if Req_dec_T fraction 1 then q1
  else
    let d := q_dot q0 q1 in
    if Rlt_dec (Rabs (Rabs d - 1)) _EPS then q0
    else
      let '(d, q1) := if Rlt_dec d 0 then (- d, q_scale (-1) q1) else (d, q1) in
      let angle := acos d in
      if Rlt_dec (Rabs angle) _EPS then q0
      else
        let isin := 1 / sin angle in
        q_add (q_scale (sin ((1 - fraction) * angle) * isin) q0)
              (q_scale (sin (fraction * angle) * isin) q1).

End Num.
Export Num.

(** ** Messages *)

(** Nanoseconds, for stamps and for the node's clock. *)
Definition Time : Type := Z.

Record Header : Type := mkHeader { stamp : Time; frame_id : string }.

(** [sensor_msgs/CameraInfo.k] is a fixed array of nine reals, row-major. *)
Record Array9 : Type := mkArray9 {
  k0 : R; k1 : R; k2 : R; k3 : R; k4 : R; k5 : R; k6 : R; k7 : R; k8 : R }.

(** The 3x3 array [np.reshape(np.array(k), (3, 3))], as its three rows. *)
Definition Matrix33 : Type := (Vector3 * Vector3 * Vector3)%type.

Definition np_reshape_3_3 (a : Array9) : Matrix33 :=
  (mkV3 (k0 a) (k1 a) (k2 a), mkV3 (k3 a) (k4 a) (k5 a), mkV3 (k6 a) (k7 a) (k8 a)).

Record CameraInfo : Type := mkCameraInfo {
  ci_header : Header;
  ci_k : Array9;
  ci_d : list R }.

(** [geometry_msgs/Pose]. *)
Record Pose : Type := mkPose { position : Vector3; orientation : Quaternion }.

(** [geometry_msgs/PoseArray]. *)
Record PoseArray : Type := mkPoseArray { pa_header : Header; pa_poses : list Pose }.

(** [ros2_aruco_interfaces/ArucoMarkers]. *)
Record ArucoMarkers : Type := mkArucoMarkers {
  am_header : Header;
  am_marker_ids : list Z;
  am_poses : list Pose }.

(** What a callback does to the outside: a warning of the logger, or a
    message handed to one of the two publishers. *)
Inductive Effect : Type :=
  | LogWarn (text : string)
  | PublishPoses (msg : PoseArray)      (* poses_pub, topic aruco_poses *)
  | PublishMarkers (msg : ArucoMarkers) (* markers_pub, topic aruco_markers *).

(** Exceptions a callback of the model can raise. *)
Inductive Exn : Type :=
  | IndexError.

(** ** The pose history: [defaultdict(lambda: deque(maxlen=window_size))] *)

(** One history entry: the tuple [(position, quat)]. *)
Definition Entry : Type := (Vector3 * Quaternion)%type.

(** [self.window_size = 2]. *)
Definition window_size : nat := 2.

(** [deque.append] on a deque built with [maxlen]: the item goes to the
    right end, then the left-most item is dropped if the length exceeds
    [maxlen]. *)
Definition deque_append {A : Type} (maxlen : nat) (d : list A) (x : A) : list A :=
  let d' := d ++ [x] in
  if (maxlen <? length d')%nat then tail d' else d'.

(** [self.pose_history[marker_id]]: a missing key reads as the empty deque
    the default factory makes. *)
Definition history_get (h : gmap Z (list Entry)) (marker_id : Z) : list Entry :=
  default [] (h !! marker_id).

(** [self.pose_history[marker_id].append(entry)]. *)
Definition history_append (h : gmap Z (list Entry)) (marker_id : Z) (e : Entry)
  : gmap Z (list Entry) :=
  <[marker_id := deque_append window_size (history_get h marker_id) e]> h.

(** ** Smoothing, as inlined in [image_callback] *)

(** [avg_position = np.mean([p[0] for p in poses], axis=0)]. *)
Definition avg_position (poses : list Entry) : Vector3 := np_mean (map fst poses).

(** The running estimate before renormalisation: [quats[0]], then one
    [quaternion_slerp(avg_quat, q, 0.5)] per element of [quats[1:]]. *)
Definition blend_quat (q0 : Quaternion) (rest : list Quaternion) : Quaternion :=
  fold_left (fun avg_quat q => quaternion_slerp avg_quat q (1 / 2)%R) rest q0.

(** [avg_quat], after [avg_quat / np.linalg.norm(avg_quat)].  [quats[0]]
    raises on an empty window. *)
Definition avg_quat (quats : list Quaternion) : Exn + Quaternion :=
  match quats with
  | [] => inl IndexError
  | q0 :: rest =>
      let b := blend_quat q0 rest in
      inr (q_div b (q_norm b))
  end.

(** The smoothed pose of one window. *)
Definition smooth (poses : list Entry) : Exn + Pose :=
  match avg_quat (map snd poses) with
  | inl e => inl e
  | inr q => inr (mkPose (avg_position poses) q)
  end.

(** ** The libraries the node calls *)

(** OpenCV ([cv2], [cv2.aruco]), [cv_bridge] and
    [tf_transformations.quaternion_from_matrix], with the types of the
    values the node only passes along. *)
Record Libs : Type := mkLibs {
  Image : Type;            (* sensor_msgs/Image *)
  CvImage : Type;
  Corner : Type;           (* one marker's four image points *)
  RotMatrix : Type;
  image_header : Image -> Header;
  imgmsg_to_cv2 : Image -> CvImage;
  cv2_version : string;    (* cv2.__version__ *)
  (* corners and marker_ids; marker_ids is None when nothing is detected *)
  detectMarkers : CvImage -> list Corner * option (list Z);
  (* retval, rvec, tvec *)
  solvePnP : list Vector3 -> Corner -> option Matrix33 -> option (list R)
             -> bool * Vector3 * Vector3;
  (* rvecs, tvecs *)
  estimatePoseSingleMarkers : list Corner -> R -> option Matrix33 -> option (list R)
                              -> list Vector3 * list Vector3;
  Rodrigues : Vector3 -> RotMatrix;
  quaternion_from_matrix : RotMatrix -> Quaternion }.

(** ** The node *)

Record ArucoNode : Type := mkNode {
  marker_size : R;
  camera_frame : string;
  info_sub : bool;         (* the camera-info subscription still exists *)
  info_msg : option CameraInfo;
  intrinsic_mat : option Matrix33;
  distortion : option (list R);
  pose_history : gmap Z (list Entry);
  last_publish_time : Time }.

(** The fields [__init__] sets, given the two parameters the callbacks
    read and the clock. *)
Definition init (size : R) (frame : string) (now : Time) : ArucoNode :=
  {| marker_size := size; camera_frame := frame; info_sub := true;
     info_msg := None; intrinsic_mat := None; distortion := None;
     pose_history := ∅; last_publish_time := now |}.

(** The node holds the calibration of message [m] and no longer listens. *)
Definition calibrated_by (m : CameraInfo) (self : ArucoNode) : Prop :=
  info_msg self = Some m ∧
  intrinsic_mat self = Some (np_reshape_3_3 (ci_k m)) ∧
  distortion self = Some (ci_d m) ∧
  info_sub self = false.

(** [info_callback]: store the message and the two arrays made from it,
    then destroy the subscription. *)
Definition info_callback (msg : CameraInfo) (self : ArucoNode) : ArucoNode :=
  {| marker_size := marker_size self; camera_frame := camera_frame self;
     info_sub := false;
     info_msg := Some msg;
     intrinsic_mat := Some (np_reshape_3_3 (ci_k msg));
     distortion := Some (ci_d msg);
     pose_history := pose_history self;
     last_publish_time := last_publish_time self |}.

(** The marker's corners in its own frame. *)
Definition obj_points (size : R) : list Vector3 :=
  [ mkV3 (- size / 2) (size / 2) 0;
    mkV3 (size / 2) (size / 2) 0;
    mkV3 (size / 2) (- size / 2) 0;
    mkV3 (- size / 2) (- size / 2) 0 ]%R.

(** What the second loop of [image_callback] updates. *)
Record Loop : Type := mkLoop {
  l_history : gmap Z (list Entry);
  l_pose_array : list Pose;     (* pose_array.poses *)
  l_markers_poses : list Pose;  (* markers.poses *)
  l_marker_ids : list Z         (* markers.marker_ids *) }.

Section Node.
Context (lib : Libs).

(** The first loop: one [solvePnP] per corner set; [retval] is dropped. *)
Definition solve_all (self : ArucoNode) (corners : list (Corner lib))
  : list Vector3 * list Vector3 :=
  let solved :=
    map (fun corner =>
           solvePnP lib (obj_points (marker_size self)) corner
                    (intrinsic_mat self) (distortion self)) corners in
  (map (fun r => snd (fst r)) solved, map snd solved).

(** [rvecs] and [tvecs]: from the first loop when
    [cv2.__version__ > "4.0.0"] (a comparison of strings), from
    [cv2.aruco.estimatePoseSingleMarkers] otherwise. *)
Definition pose_vectors (self : ArucoNode) (corners : list (Corner lib))
  : list Vector3 * list Vector3 :=
  if String.ltb "4.0.0" (cv2_version lib) then solve_all self corners
  else estimatePoseSingleMarkers lib corners (marker_size self)
         (intrinsic_mat self) (distortion self).

(** [for i, marker_id in enumerate(marker_ids)], from index [i] on. *)
Fixpoint marker_loop (rvecs tvecs : list Vector3) (i : nat) (marker_ids : list Z)
    (s : Loop) : Loop * option Exn :=
  match marker_ids with
  | [] => (s, None)
  | marker_id :: rest =>
      if bool_decide (marker_id ≠ 1%Z) then marker_loop rvecs tvecs (S i) rest s
      else
        match tvecs !! i with
        | None => (s, Some IndexError)
        | Some position =>
            match rvecs !! i with
            | None => (s, Some IndexError)
            | Some rvec =>
                let quat := quaternion_from_matrix lib (Rodrigues lib rvec) in
                let h := history_append (l_history s) marker_id (position, quat) in
                let poses := history_get h marker_id in
                match smooth poses with
                | inl e => (mkLoop h (l_pose_array s) (l_markers_poses s) (l_marker_ids s),
                            Some e)
                | inr pose =>
                    marker_loop rvecs tvecs (S i) rest
                      (mkLoop h (l_pose_array s ++ [pose]) (l_markers_poses s ++ [pose])
                              (l_marker_ids s ++ [marker_id]))
                end
            end
        end
  end.

(** The raw pose of each detection: the marker id with the entry
    [(position, quat)] made from the pose vectors at the same index. *)
Definition raw_poses (rvecs tvecs : list Vector3) (marker_ids : list Z)
  : list (Z * Entry) :=
  zip_with (fun marker_id tr =>
              (marker_id, (tr.1, quaternion_from_matrix lib (Rodrigues lib tr.2))))
           marker_ids (zip tvecs rvecs).

(** The entries the loop pushes: the raw poses of the detections of id 1. *)
Definition pushed_entries (rvecs tvecs : list Vector3) (marker_ids : list Z)
  : list Entry :=
  map snd (filter (fun p => p.1 = 1%Z) (raw_poses rvecs tvecs marker_ids)).

Definition set_history (self : ArucoNode) (now : Time) (h : gmap Z (list Entry))
  : ArucoNode :=
  {| marker_size := marker_size self; camera_frame := camera_frame self;
     info_sub := info_sub self; info_msg := info_msg self;
     intrinsic_mat := intrinsic_mat self; distortion := distortion self;
     pose_history := h; last_publish_time := now |}.

(** [image_callback], with the reading of the clock as [now].  The result
    is the node afterwards, what was logged and published, in order, and
    the exception that ended the call, if any. *)
Definition image_callback (now : Time) (img_msg : Image lib) (self : ArucoNode)
  : ArucoNode * list Effect * option Exn :=
  match info_msg self with
  | None => (self, [LogWarn "No camera info has been received!"], None)
  | Some info =>
      let cv_image := imgmsg_to_cv2 lib img_msg in
      let fid := if String.eqb (camera_frame self) ""
                 then frame_id (ci_header info) else camera_frame self in
      let header := mkHeader (stamp (image_header lib img_msg)) fid in
      let '(corners, marker_ids) := detectMarkers lib cv_image in
      match marker_ids with
      | None => (set_history self now (pose_history self), [], None)
      | Some ids =>
          let '(rvecs, tvecs) := pose_vectors self corners in
          match marker_loop rvecs tvecs 0 ids (mkLoop (pose_history self) [] [] []) with
          | (s, Some e) => (set_history self now (l_history s), [], Some e)
          | (s, None) =>
              (set_history self now (l_history s),
               [ PublishPoses (mkPoseArray header (l_pose_array s));
                 PublishMarkers (mkArucoMarkers header (l_marker_ids s)
                                                (l_markers_poses s)) ],
               None)
          end
      end
  end.

(** ** Delivery of messages *)

(** What the executor hands to the node: a camera-info message, or an
    image together with the clock reading of its callback. *)
Inductive Incoming : Type :=
  | InInfo (msg : CameraInfo)
  | InImage (now : Time) (msg : Image lib).

(** A message reaches a callback only through an existing subscription:
    after [destroy_subscription] camera-info messages are not delivered. *)
Definition deliver (m : Incoming) (self : ArucoNode)
  : ArucoNode * list Effect * option Exn :=
  match m with
  | InInfo msg =>
      if info_sub self then (info_callback msg self, [], None) else (self, [], None)
  | InImage now msg => image_callback now msg self
  end.

(** [rclpy.spin]: messages one at a time, until a callback raises. *)
Fixpoint spin (ms : list Incoming) (self : ArucoNode)
  : ArucoNode * list Effect * option Exn :=
  match ms with
  | [] => (self, [], None)
  | m :: rest =>
      match deliver m self with
      | (self', out, Some e) => (self', out, Some e)
      | (self', out, None) =>
          let '(self'', out', r) := spin rest self' in (self'', out ++ out', r)
      end
  end.

End Node.

(** ** Instances used to run the node on concrete frames *)

(** The libraries with the success flag of [solvePnP] replaced by [b]. *)
Definition with_retval (b : bool) (lib : Libs) : Libs :=
  {| Image := Image lib; CvImage := CvImage lib; Corner := Corner lib;
     RotMatrix := RotMatrix lib;
     image_header := image_header lib; imgmsg_to_cv2 := imgmsg_to_cv2 lib;
     cv2_version := cv2_version lib; detectMarkers := detectMarkers lib;
     solvePnP := fun obj img k d =>
       let '(_, rvec, tvec) := solvePnP lib obj img k d in (b, rvec, tvec);
     estimatePoseSingleMarkers := estimatePoseSingleMarkers lib;
     Rodrigues := Rodrigues lib;
     quaternion_from_matrix := quaternion_from_matrix lib |}.

Module Demo.

(** An image is its header and the ids of the markers in view; the
    detector reports them in order (and [None] for none), the solver
    places every marker one metre ahead, unrotated, and reports [retval]. *)
Definition libs (retval : bool) : Libs :=
  {| Image := Header * list Z; CvImage := list Z; Corner := Z;
     RotMatrix := Vector3;
     image_header := fst; imgmsg_to_cv2 := snd;
     cv2_version := "4.8.0";
     detectMarkers := fun ids =>
       (ids, match ids with [] => None | _ => Some ids end);
     solvePnP := fun _ _ _ _ => (retval, v3_zero, mkV3 0 0 1);
     estimatePoseSingleMarkers := fun cs _ _ _ =>
       (map (fun _ => v3_zero) cs, map (fun _ => mkV3 0 0 1) cs);
     Rodrigues := fun rvec => rvec;
     quaternion_from_matrix := fun _ => mkQ 0 0 0 1 |}.

Definition info : CameraInfo :=
  mkCameraInfo (mkHeader 0%Z "camera") (mkArray9 1 0 0 0 1 0 0 0 1) [].

Definition info' : CameraInfo :=
  mkCameraInfo (mkHeader 5%Z "other") (mkArray9 2 0 0 0 2 0 0 0 1) [0%R].

(** The node as constructed, and after its first camera-info message. *)
Definition fresh : ArucoNode := init (1 / 16)%R "" 0%Z.
Definition ready : ArucoNode := info_callback info fresh.

(** The frame with stamp 7 that shows the markers [ids]. *)
Definition frame (ids : list Z) : Header * list Z := (mkHeader 7%Z "", ids).

(** The raw pose the solver of [libs] gives to every marker. *)
Definition raw : Entry := (mkV3 0 0 1, mkQ 0 0 0 1).

(** A history entry told apart by its first coordinate. *)
Definition entry (n : Z) : Entry := (mkV3 (IZR n) 0 0, mkQ 0 0 0 1).

(** A frame before any camera-info message. *)
Definition early_run := image_callback (libs true) 9%Z (frame [1%Z]) fresh.


(** Ready; only marker 2 is in view. *)
Definition filtered_run := image_callback (libs true) 9%Z (frame [2%Z]) ready.

(** Ready; marker 1 is in view and the solver reports failure. *)
Definition failed_run := image_callback (libs false) 9%Z (frame [1%Z]) ready.

(** Ready; markers 2 and 1 are in view. *)
Definition run := image_callback (libs true) 9%Z (frame [2%Z; 1%Z]) ready.

(** Two frames that come before the first camera-info message, and what
    comes after it: a frame, a second camera-info message, a last frame. *)
Definition before : list (Incoming (libs true)) :=
  [InImage (libs true) 1%Z (frame [1%Z]); InImage (libs true) 2%Z (frame [])].
Definition after : list (Incoming (libs true)) :=
  [InImage (libs true) 3%Z (frame [1%Z]); InInfo (libs true) info';
   InImage (libs true) 4%Z (frame [2%Z; 1%Z])].

End Demo.

(** ** The windows one buffer goes through *)

(** The successive contents of a buffer that starts as [d] and receives
    the entries [es], one [deque.append] at a time. *)
Fixpoint windows (d : list Entry) (es : list Entry) : list (list Entry) :=
  match es with
  | [] => []
  | e :: rest =>
      let d' := deque_append window_size d e in
      d' :: windows d' rest
  end.

(** The buffers the node keeps: only marker 1 has one, and it holds between
    one and [window_size] entries. *)
Definition history_ok (h : gmap Z (list Entry)) : Prop :=
  ∀ id d, h !! id = Some d → id = 1%Z ∧ (1 ≤ length d ≤ window_size)%nat.

(** The header both messages of a frame get: the stamp of the image and
    the [camera_frame] parameter, or the camera info's frame when that
    parameter is the empty string. *)
Definition out_header (lib : Libs) (self : ArucoNode) (info : CameraInfo)
    (img_msg : Image lib) : Header :=
  mkHeader (stamp (image_header lib img_msg))
           (if String.eqb (camera_frame self) "" then frame_id (ci_header info)
            else camera_frame self).

(** The history entry [image_callback] makes of one corner set when the
    pose vectors come from [solvePnP]. *)
Definition raw_entry (lib : Libs) (self : ArucoNode) (corner : Corner lib) : Entry :=
  let '(_, rvec, tvec) :=
    solvePnP lib (obj_points (marker_size self)) corner
             (intrinsic_mat self) (distortion self) in
  (tvec, quaternion_from_matrix lib (Rodrigues lib rvec)).

(** The detections of a frame that pass the filter of the loop, in the
    order of detection, each with its marker id and its raw pose. *)
Definition frame_pushes (lib : Libs) (self : ArucoNode) (img_msg : Image lib)
  : list (Z * Entry) :=
  let '(corners, marker_ids) := detectMarkers lib (imgmsg_to_cv2 lib img_msg) in
  let '(rvecs, tvecs) := pose_vectors lib self corners in
  filter (fun p => p.1 = 1%Z) (raw_poses lib rvecs tvecs (default [] marker_ids)).

(** Pushing entries one by one, each into the buffer of its own marker
    id: the marker id of every push with the contents of that marker's
    buffer right after the push. *)
Fixpoint labelled_windows (h : gmap Z (list Entry)) (pushes : list (Z * Entry))
  : list (Z * list Entry) :=
  match pushes with
  | [] => []
  | (marker_id, e) :: rest =>
      let h' := history_append h marker_id e in
      (marker_id, history_get h' marker_id) :: labelled_windows h' rest
  end.

Module Legacy.

(** As [Demo.libs], with an OpenCV older than 4 whose
    [estimatePoseSingleMarkers] returns no pose vector at all. *)
Definition libs : Libs :=
  {| Image := Header * list Z; CvImage := list Z; Corner := Z;
     RotMatrix := Vector3;
     image_header := fst; imgmsg_to_cv2 := snd;
     cv2_version := "3.4.0";
     detectMarkers := fun ids =>
       (ids, match ids with [] => None | _ => Some ids end);
     solvePnP := fun _ _ _ _ => (true, v3_zero, mkV3 0 0 1);
     estimatePoseSingleMarkers := fun _ _ _ _ => ([], []);
     Rodrigues := fun rvec => rvec;
     quaternion_from_matrix := fun _ => mkQ 0 0 0 1 |}.

(** The same with the version string of an OpenCV 10. *)
Definition libs10 : Libs :=
  {| Image := Header * list Z; CvImage := list Z; Corner := Z;
     RotMatrix := Vector3;
     image_header := fst; imgmsg_to_cv2 := snd;
     cv2_version := "10.0.0";
     detectMarkers := fun ids =>
       (ids, match ids with [] => None | _ => Some ids end);
     solvePnP := fun _ _ _ _ => (true, v3_zero, mkV3 0 0 1);
     estimatePoseSingleMarkers := fun _ _ _ _ => ([], []);
     Rodrigues := fun rvec => rvec;
     quaternion_from_matrix := fun _ => mkQ 0 0 0 1 |}.

End Legacy.

(** ** [ArucoNode.__init__] *)

(** The node's five parameters, as [get_parameter] returns them. *)
Record Params : Type := mkParams {
  p_marker_size : R;
  p_aruco_dictionary_id : string;
  p_image_topic : string;
  p_camera_info_topic : string;
  p_camera_frame : string }.

(** The values of the [declare_parameter] calls. *)
Definition default_params : Params :=
  {| p_marker_size := (625 / 10000)%R;
     p_aruco_dictionary_id := "DICT_5X5_250";
     p_image_topic := "/camera/image_raw";
     p_camera_info_topic := "/camera/camera_info";
     p_camera_frame := "" |}.

(** A Python object as far as [__init__] looks at it: its type. *)
Inductive PyObj : Type :=
  | PyInt (n : Z)
  | PyStr (s : string)
  | PyOther (type_name : string).

(** [type(a) != type(b)]. *)
Definition type_differs (a b : PyObj) : bool :=
  match a, b with
  | PyInt _, PyInt _ => false
  | PyStr _, PyStr _ => false
  | PyOther s, PyOther t => negb (String.eqb s t)
  | _, _ => true
  end.

(** The module [cv2.aruco]: its attributes by name, in the order of
    [dir], and [getPredefinedDictionary], which gives no dictionary when
    OpenCV rejects its argument. *)
Record ArucoModule : Type := mkArucoModule {
  Dictionary : Type;
  attributes : list (string * PyObj);
  getPredefinedDictionary : PyObj -> option Dictionary }.

(** [cv2.aruco.__getattribute__(name)]; [None] is [AttributeError]. *)
Fixpoint getattribute (attrs : list (string * PyObj)) (name : string) : option PyObj :=
  match attrs with
  | [] => None
  | (n, v) :: rest => if String.eqb n name then Some v else getattribute rest name
  end.

Definition newline : string := String (ascii_of_nat 10) "".

(** ["\n".join([s for s in dir(cv2.aruco) if s.startswith("DICT")])]. *)
Definition dictionary_options (ar : ArucoModule) : string :=
  String.concat newline
    (List.filter (String.prefix "DICT") (map fst (attributes ar))).

(** A line of the logger; the float of the first message is kept as a
    number. *)
Inductive InitLog : Type :=
  | InfoMarkerSize (size : R)      (* f"Marker size: {self.marker_size}" *)
  | Info (text : string)
  | Error (text : string).

Inductive InitExn : Type :=
  | UnboundLocalError   (* [dictionary_id] read before any assignment *)
  | Cv2Error            (* raised by [getPredefinedDictionary] *).

(** The [try] block: the value bound to [dictionary_id], if the lookup
    got that far, and whether the [except AttributeError] branch ran. *)
Definition check_dictionary (ar : ArucoModule) (name : string) : option PyObj * bool :=
  match getattribute (attributes ar) name with
  | None => (None, true)
  | Some dictionary_id =>
      match getattribute (attributes ar) "DICT_5X5_100" with
      | None => (Some dictionary_id, true)
      | Some reference => (Some dictionary_id, type_differs dictionary_id reference)
      end
  end.

(** [__init__], with the reading of the clock as [now]: what it logs, and
    the node it makes or the exception that ends it.  The subscriptions,
    the publishers, the detector and the bridge are taken to be created
    without error; [dictionary_id] is read after they are. *)
Definition node_init (ar : ArucoModule) (p : Params) (now : Time)
  : list InitLog * (InitExn + ArucoNode) :=
  let name := p_aruco_dictionary_id p in
  let infos :=
    [ InfoMarkerSize (p_marker_size p);
      Info ("Marker type: " ++ name);
      Info ("Image topic: " ++ p_image_topic p);
      Info ("Image info topic: " ++ p_camera_info_topic p) ] in
  let '(dictionary_id, bad) := check_dictionary ar name in
  let errors :=
    if bad then [ Error ("bad aruco_dictionary_id: " ++ name);
                  Error ("valid options: " ++ dictionary_options ar) ]
    else [] in
  match dictionary_id with
  | None => (infos ++ errors, inl UnboundLocalError)
  | Some v =>
      match getPredefinedDictionary ar v with
      | None => (infos ++ errors, inl Cv2Error)
      | Some _ => (infos ++ errors, inr (init (p_marker_size p) (p_camera_frame p) now))
      end
  end.

Module Aruco.

(** A [cv2.aruco] with three dictionaries, a class and a function. *)
Definition module : ArucoModule :=
  {| Dictionary := Z;
     attributes :=
       [ ("DICT_4X4_50"%string, PyInt 0); ("DICT_5X5_100"%string, PyInt 5);
         ("DICT_5X5_250"%string, PyInt 6); ("Dictionary"%string, PyOther "type");
         ("detectMarkers"%string, PyOther "builtin_function_or_method") ];
     getPredefinedDictionary := fun v =>
       match v with PyInt n => Some n | _ => None end |}.

End Aruco.

(** * Properties *)

(** ** The bounded deque *)

Example deque_append_room : deque_append 2 [10%Z] 20%Z = [10%Z; 20%Z].
Proof. reflexivity. Qed.

Example deque_append_full : deque_append 2 [10%Z; 20%Z] 30%Z = [20%Z; 30%Z].
Proof. reflexivity. Qed.

Example deque_append_maxlen_0 : deque_append 0 [] 10%Z = [].
Proof. reflexivity. Qed.

Section Deque.
Context {A : Type}.
Implicit Types (d xs : list A) (x : A).

Lemma deque_append_length maxlen d x :
  (length d ≤ maxlen → length (deque_append maxlen d x) ≤ maxlen)%nat.
Proof.
  intros Hd. unfold deque_append.
  destruct (Nat.ltb_spec maxlen (length (d ++ [x]))) as [Hlt | Hle]; [|done].
  rewrite length_app in Hlt. destruct d; simpl in *; [lia|]. rewrite length_app. simpl. lia.
Qed.

(** From a deque within its bound, any run of appends leaves the last
    [maxlen] items of everything that was ever in it. *)
Lemma deque_appends_drop maxlen xs : ∀ d,
  (length d ≤ maxlen)%nat →
  fold_left (deque_append maxlen) xs d
  = drop (length (d ++ xs) - maxlen) (d ++ xs).
Proof.
  induction xs as [| x xs IH]; intros d Hd; simpl.
  - rewrite app_nil_r. replace (length d - maxlen)%nat with 0%nat by lia. done.
  - rewrite IH by (by apply deque_append_length).
    unfold deque_append.
    destruct (Nat.ltb_spec maxlen (length (d ++ [x]))) as [Hlt | Hle].
    + rewrite length_app in Hlt. simpl in Hlt.
      assert (Hdl : length d = maxlen) by lia.
      destruct d as [| a d]; simpl in *.
      * subst maxlen. simpl. by rewrite !Nat.sub_0_r.
      * rewrite <- (assoc_L (++)). simpl.
        rewrite !length_app. simpl.
        replace (S (length d + S (length xs)) - maxlen)%nat
          with (S (length d + S (length xs) - maxlen)) by lia.
        done.
    + by rewrite <- (assoc_L (++)).
Qed.

End Deque.

(** ** Arithmetic of the smoothing *)

Section Smoothing.
Local Open Scope R_scope.


Lemma q_dot_self_nonneg (q : Quaternion) : 0 <= q_dot q q.
Proof. unfold q_dot. nra. Qed.

Lemma q_div_one (q : Quaternion) : q_div q 1 = q.
Proof. destruct q. unfold q_div. simpl. f_equal; lra. Qed.

Lemma q_norm_unit (q : Quaternion) : q_dot q q = 1 → q_norm q = 1.
Proof. intros H. unfold q_norm. rewrite H. apply sqrt_1. Qed.

Lemma unit_vector_unit (q : Quaternion) : q_dot q q = 1 → unit_vector q = q.
Proof. intros H. unfold unit_vector. rewrite H, sqrt_1. apply q_div_one. Qed.

(** Dividing by the norm gives norm 1, for any array that is not zero. *)
Lemma q_norm_normalized (q : Quaternion) :
  q_norm q ≠ 0 → q_norm (q_div q (q_norm q)) = 1.
Proof.
  intros Hn. unfold q_norm in *.
  set (n := sqrt (q_dot q q)) in *.
  assert (Hnn : n * n = q_dot q q) by (apply sqrt_sqrt, q_dot_self_nonneg).
  replace (q_dot (q_div q n) (q_div q n)) with 1; [apply sqrt_1|].
  unfold q_dot, q_div in *. simpl.
  destruct q as [x y z w]. simpl in *.
  field_simplify_eq; [|done]. lra.
Qed.

Lemma q_norm_nonzero (q : Quaternion) : q ≠ mkQ 0 0 0 0 → q_norm q ≠ 0.
Proof.
  intros Hq Hn. apply Hq. unfold q_norm in Hn.
  apply sqrt_eq_0 in Hn; [|apply q_dot_self_nonneg].
  destruct q as [x y z w]. unfold q_dot in Hn. simpl in Hn.
  f_equal; nra.
Qed.

Lemma _EPS_small : _EPS < 1.
Proof.
  unfold _EPS.
  assert (H : 4 < 2 ^ 52) by (simpl; lra).
  apply (Rmult_lt_reg_r (2 ^ 52)); [lra|].
  unfold Rdiv. rewrite Rmult_assoc, Rinv_l by lra. lra.
Qed.

Lemma sqrt2_sq : sqrt 2 * sqrt 2 = 2.
Proof. apply sqrt_sqrt. lra. Qed.

Lemma sqrt2_pos : 0 < sqrt 2.
Proof. apply sqrt_lt_R0. lra. Qed.

(** The half-way slerp of two orthogonal unit quaternions is their sum
    over the square root of 2. *)
Lemma slerp_half_orthogonal (q0 q1 : Quaternion) :
  q_dot q0 q0 = 1 → q_dot q1 q1 = 1 → q_dot q0 q1 = 0 →
  quaternion_slerp q0 q1 (1 / 2) = q_div (q_add q0 q1) (sqrt 2).
Proof.
  intros H0 H1 H01. unfold quaternion_slerp.
  rewrite !unit_vector_unit by done. rewrite H01.
  destruct (Req_dec_T (1 / 2) 0) as [E | _]; [lra|].
  destruct (Req_dec_T (1 / 2) 1) as [E | _]; [lra|].
  pose proof _EPS_small as He. pose proof PI2_1 as Hpi.
  destruct (Rlt_dec (Rabs (Rabs 0 - 1)) _EPS) as [E | _].
  { rewrite Rabs_R0 in E. replace (0 - 1) with (- (1)) in E by lra.
    rewrite Rabs_Ropp, Rabs_R1 in E. lra. }
  destruct (Rlt_dec 0 0) as [E | _]; [lra|].
  rewrite acos_0.
  destruct (Rlt_dec (Rabs (PI / 2)) _EPS) as [E | _].
  { rewrite Rabs_pos_eq in E by lra. lra. }
  replace ((1 - 1 / 2) * (PI / 2)) with (PI / 4) by lra.
  replace (1 / 2 * (PI / 2)) with (PI / 4) by lra.
  rewrite sin_PI2, sin_PI4.
  pose proof sqrt2_pos.
  destruct q0, q1. unfold q_add, q_scale, q_div. simpl.
  f_equal; field; lra.
Qed.

End Smoothing.

Section Cascade.
Local Open Scope R_scope.

Lemma half_sum_unit (a b : Quaternion) :
  q_dot a a = 1 → q_dot b b = 1 → q_dot a b = 0 →
  q_dot (q_div (q_add a b) (sqrt 2)) (q_div (q_add a b) (sqrt 2)) = 1.
Proof.
  intros Ha Hb Hab. pose proof sqrt2_pos. pose proof sqrt2_sq as Hs.
  destruct a as [ax ay az aw], b as [bx b_y bz bw].
  unfold q_dot, q_div, q_add in *. simpl in *.
  field_simplify_eq; [|lra].
  replace (sqrt 2 ^ 2) with 2 by (simpl; lra). lra.
Qed.

Lemma half_sum_orthogonal (a b c : Quaternion) :
  q_dot a c = 0 → q_dot b c = 0 →
  q_dot (q_div (q_add a b) (sqrt 2)) c = 0.
Proof.
  intros Ha Hb. pose proof sqrt2_pos.
  destruct a as [ax ay az aw], b as [bx b_y bz bw], c as [cx cy cz cw].
  unfold q_dot, q_div, q_add in *. simpl in *.
  field_simplify_eq; [|lra]. lra.
Qed.

(** The cascade over three pairwise orthogonal unit quaternions. *)
Lemma blend_quat_orthogonal (a b c : Quaternion) :
  q_dot a a = 1 → q_dot b b = 1 → q_dot c c = 1 →
  q_dot a b = 0 → q_dot a c = 0 → q_dot b c = 0 →
  blend_quat a [b; c] = q_div (q_add (q_div (q_add a b) (sqrt 2)) c) (sqrt 2).
Proof.
  intros Ha Hb Hc Hab Hac Hbc. unfold blend_quat. simpl.
  rewrite (slerp_half_orthogonal a b) by done.
  apply slerp_half_orthogonal; [by apply half_sum_unit | done |].
  by apply half_sum_orthogonal.
Qed.

End Cascade.

(** ** The claims on the smoothing and on the history buffer *)




(** C9: on every non-empty window smoothing returns a pose, and its
    orientation has norm exactly 1 whenever the blend before the final
    division is not the zero array, whatever the window holds and however
    long it is. *)
Theorem smooth_orientation_unit (e : Entry) (rest : list Entry) :
  blend_quat (snd e) (map snd rest) ≠ mkQ 0 0 0 0 →
  ∃ pose, smooth (e :: rest) = inr pose ∧ q_norm (orientation pose) = 1%R.
Proof.
  intros Hb. unfold smooth. simpl.
  eexists. split; [done|]. simpl. by apply q_norm_normalized, q_norm_nonzero.
Qed.

Lemma smooth_orientation_unit_witness :
  blend_quat (snd Demo.raw) (map snd ([] : list Entry)) ≠ mkQ 0 0 0 0 ∧
  ∃ pose, smooth [Demo.raw] = inr pose ∧ q_norm (orientation pose) = 1%R.
Proof.
  assert (H : blend_quat (snd Demo.raw) (map snd ([] : list Entry)) ≠ mkQ 0 0 0 0).
  { simpl. unfold blend_quat. simpl. intros [=]. lra. }
  split; [exact H | exact (smooth_orientation_unit Demo.raw [] H)].
Defined.

(** C7: the orientation blend depends on the order of the window: for the
    three unit quaternions x, y and z (distinct, pairwise orthogonal) the
    blend of the window and the blend of the reversed window differ. *)
Theorem avg_quat_order_dependent :
  ∃ q1 q2 q3 : Quaternion,
    q1 ≠ q2 ∧ q2 ≠ q3 ∧ q1 ≠ q3 ∧
    q_norm q1 = 1%R ∧ q_norm q2 = 1%R ∧ q_norm q3 = 1%R ∧
    avg_quat [q1; q2; q3] ≠ avg_quat (rev [q1; q2; q3]).
Proof.
  exists (mkQ 1 0 0 0), (mkQ 0 1 0 0), (mkQ 0 0 1 0).
  assert (Hd : ∀ a b c d, (a * a + b * b + c * c + d * d = 1)%R →
               q_norm (mkQ a b c d) = 1%R).
  { intros. by apply q_norm_unit. }
  repeat split; try (intros [=]; lra); try (apply Hd; lra).
  cbn [rev app]. unfold avg_quat.
  rewrite !blend_quat_orthogonal by (unfold q_dot; simpl; lra).
  pose proof sqrt2_pos as Hp. pose proof sqrt2_sq as Hs.
  intros Heq. apply (f_equal (fun r => match r with inr q => qx q | inl _ => 0%R end)) in Heq.
  rewrite !q_norm_unit in Heq; cycle 1.
  { unfold q_dot, q_div, q_add. simpl. field_simplify_eq; [|lra].
    replace (sqrt 2 ^ 4)%R with 4%R by (simpl; nra).
    replace (sqrt 2 ^ 2)%R with 2%R by (simpl; lra). lra. }
  { unfold q_dot, q_div, q_add. simpl. field_simplify_eq; [|lra].
    replace (sqrt 2 ^ 4)%R with 4%R by (simpl; nra).
    replace (sqrt 2 ^ 2)%R with 2%R by (simpl; lra). lra. }
  unfold q_div, q_add in Heq. simpl in Heq.
  replace (((1 + 0) / sqrt 2 + 0) / sqrt 2 / 1)%R with (/ (sqrt 2 * sqrt 2))%R in Heq
    by (field; lra).
  replace (((0 + 0) / sqrt 2 + 1) / sqrt 2 / 1)%R with (/ sqrt 2)%R in Heq
    by (field; lra).
  rewrite Hs in Heq. apply (f_equal Rinv) in Heq. rewrite !Rinv_inv in Heq.
  rewrite <- Heq in Hs. lra.
Qed.

(** ** The second loop of [image_callback] *)

Section Pipeline.
Context (lib : Libs).
Implicit Types (s : Loop) (ids : list Z) (rvecs tvecs : list Vector3).

Lemma deque_append_nonempty {A : Type} (maxlen : nat) (d : list A) (x : A) :
  (0 < maxlen)%nat → deque_append maxlen d x ≠ [].
Proof.
  intros Hm. unfold deque_append.
  destruct (Nat.ltb_spec maxlen (length (d ++ [x]))) as [Hlt | Hle].
  - rewrite length_app in Hlt. simpl in Hlt.
    destruct d as [| a [| b d]]; simpl in *; [lia | done | done].
  - by destruct d.
Qed.

Lemma history_get_append_eq (h : gmap Z (list Entry)) (id : Z) (e : Entry) :
  history_get (history_append h id e) id
  = deque_append window_size (history_get h id) e.
Proof. unfold history_append, history_get at 1. by rewrite lookup_insert_eq. Qed.

Lemma history_append_ne (h : gmap Z (list Entry)) (id id' : Z) (e : Entry) :
  id ≠ id' → history_append h id e !! id' = h !! id'.
Proof. intros Hne. unfold history_append. by rewrite lookup_insert_ne. Qed.

(** After an append the window is never empty, so smoothing it succeeds. *)
Lemma smooth_after_append (h : gmap Z (list Entry)) (id : Z) (e : Entry) :
  ∃ pose, smooth (history_get (history_append h id e) id) = inr pose.
Proof.
  rewrite history_get_append_eq.
  pose proof (deque_append_nonempty window_size (history_get h id) e) as Hne.
  destruct (deque_append window_size (history_get h id) e) as [| e0 w].
  - exfalso. apply Hne; [unfold window_size; lia | done].
  - unfold smooth. simpl. eauto.
Qed.

(** What the loop keeps true, whether it ends normally or raises. *)
Lemma marker_loop_inv rvecs tvecs ids : ∀ i s s' r,
  marker_loop lib rvecs tvecs i ids s = (s', r) →
  (∀ id, id ≠ 1%Z → l_history s' !! id = l_history s !! id) ∧
  (l_pose_array s = l_markers_poses s → l_pose_array s' = l_markers_poses s') ∧
  (length (l_marker_ids s) = length (l_markers_poses s) →
   length (l_marker_ids s') = length (l_markers_poses s')) ∧
  (∃ new, l_marker_ids s' = l_marker_ids s ++ new ∧ Forall (λ id, id = 1%Z) new) ∧
  (r = None →
   l_marker_ids s' = l_marker_ids s ++ filter (λ id, id = 1%Z) ids).
Proof.
  induction ids as [| marker_id ids IH]; intros i s s' r Hloop; simpl in Hloop.
  - injection Hloop as <- <-. repeat split; try done.
    + exists []. by rewrite app_nil_r.
    + by rewrite app_nil_r.
  - case_bool_decide as Hid.
    + apply IH in Hloop as (Hh & Hp & Hl & Hn & Hf).
      repeat split; try done.
      intros Hr. rewrite filter_cons_False by done. by apply Hf.
    + assert (marker_id = 1%Z) as -> by (destruct (decide (marker_id = 1%Z)); done).
      clear Hid.
      destruct (tvecs !! i) as [position |];
        [| injection Hloop as <- <-; repeat split; try done;
           exists []; by rewrite app_nil_r].
      destruct (rvecs !! i) as [rvec |];
        [| injection Hloop as <- <-; repeat split; try done;
           exists []; by rewrite app_nil_r].
      set (e := (position, quaternion_from_matrix lib (Rodrigues lib rvec))) in *.
      destruct (smooth (history_get (history_append (l_history s) 1 e) 1))
        as [exn | pose].
      * injection Hloop as <- <-. simpl. repeat split; try done.
        -- intros id Hne. by apply history_append_ne.
        -- exists []. by rewrite app_nil_r.
      * apply IH in Hloop as (Hh & Hp & Hl & (new & Hn & Hall) & Hf).
        simpl in *. repeat split.
        -- intros id Hne. rewrite Hh by done. by apply history_append_ne.
        -- intros Heq. apply Hp. by rewrite Heq.
        -- intros Heq. apply Hl. rewrite !length_app. simpl. lia.
        -- exists (1%Z :: new). split.
           ++ rewrite Hn. by rewrite <- (assoc_L (++)).
           ++ by constructor.
        -- intros Hr. rewrite filter_cons_True by done.
           rewrite Hf by done. by rewrite <- (assoc_L (++)).
Qed.

(** With a pose vector for every index of [marker_ids], the loop ends
    normally. *)
Lemma marker_loop_returns rvecs tvecs ids : ∀ i s,
  (i + length ids ≤ length rvecs)%nat →
  (i + length ids ≤ length tvecs)%nat →
  (marker_loop lib rvecs tvecs i ids s).2 = None.
Proof.
  induction ids as [| marker_id ids IH]; intros i s Hr Ht; simpl; [done|].
  simpl in Hr, Ht.
  case_bool_decide as Hid; [apply IH; lia|].
  destruct (lookup_lt_is_Some_2 tvecs i) as [position ->]; [lia|].
  destruct (lookup_lt_is_Some_2 rvecs i) as [rvec ->]; [lia|].
  match goal with
  | |- context [smooth (history_get (history_append ?h ?id ?e) ?id)] =>
      destruct (smooth_after_append h id e) as [pose ->]
  end.
  apply IH; lia.
Qed.

(** With a pose vector for every index, the loop pushes into the buffer of
    marker 1 the raw pose of every detection of id 1, in order. *)
Lemma marker_loop_pushes (rvecs tvecs : list Vector3) (ids : list Z) : ∀ i s,
  (i + length ids ≤ length rvecs)%nat →
  (i + length ids ≤ length tvecs)%nat →
  history_get (l_history (marker_loop lib rvecs tvecs i ids s).1) 1%Z
  = fold_left (deque_append window_size)
              (pushed_entries lib (drop i rvecs) (drop i tvecs) ids)
              (history_get (l_history s) 1%Z).
Proof.
  induction ids as [| marker_id ids IH]; intros i s Hr Ht; simpl; [done|].
  simpl in Hr, Ht.
  destruct (lookup_lt_is_Some_2 tvecs i) as [position Hpos]; [lia|].
  destruct (lookup_lt_is_Some_2 rvecs i) as [rvec Hrvec]; [lia|].
  unfold pushed_entries, raw_poses.
  rewrite (drop_S _ _ _ Hpos), (drop_S _ _ _ Hrvec). simpl.
  case_bool_decide as Hid.
  - rewrite filter_cons_False by done. apply IH; lia.
  - assert (marker_id = 1%Z) as -> by (destruct (decide (marker_id = 1%Z)); done).
    rewrite Hpos, Hrvec. rewrite filter_cons_True by done. simpl.
    match goal with
    | |- context [smooth (history_get (history_append ?h ?id ?e) ?id)] =>
        destruct (smooth_after_append h id e) as [pose ->]
    end.
    rewrite IH by lia. simpl. by rewrite history_get_append_eq.
Qed.
End Pipeline.

(** ** The history buffer across pushes *)

Lemma history_get_appends (id : Z) (es : list Entry) : ∀ h : gmap Z (list Entry),
  history_get (fold_left (λ h e, history_append h id e) es h) id
  = fold_left (deque_append window_size) es (history_get h id).
Proof.
  induction es as [| e es IH]; intros h; simpl; [done|].
  by rewrite IH, history_get_append_eq.
Qed.

(** C5: after more than [window_size] pushes into one marker's buffer
    (which held at most [window_size] entries, as every buffer of the node
    does), the buffer holds exactly [window_size] entries: the last
    [window_size] pushed, oldest first. *)
Theorem history_keeps_last_window (h : gmap Z (list Entry)) (marker_id : Z)
    (es : list Entry) :
  (length (history_get h marker_id) ≤ window_size)%nat →
  (window_size < length es)%nat →
  let h' := fold_left (λ h e, history_append h marker_id e) es h in
  length (history_get h' marker_id) = window_size ∧
  history_get h' marker_id = drop (length es - window_size) es.
Proof.
  intros Hh Hes h'. subst h'.
  rewrite history_get_appends, deque_appends_drop by done.
  rewrite length_app.
  replace (length (history_get h marker_id) + length es - window_size)%nat
    with (length (history_get h marker_id) + (length es - window_size))%nat by lia.
  rewrite drop_app_add. split; [|done].
  rewrite length_drop. lia.
Qed.

Lemma history_keeps_last_window_witness :
  length (history_get
            (fold_left (λ h e, history_append h 1%Z e)
                       [Demo.entry 1; Demo.entry 2; Demo.entry 3] ∅) 1%Z)
  = window_size ∧
  history_get
    (fold_left (λ h e, history_append h 1%Z e)
               [Demo.entry 1; Demo.entry 2; Demo.entry 3] ∅) 1%Z
  = [Demo.entry 2; Demo.entry 3].
Proof.
  apply (history_keeps_last_window ∅ 1%Z [Demo.entry 1; Demo.entry 2; Demo.entry 3]).
  - unfold history_get. rewrite lookup_empty. simpl. lia.
  - unfold window_size. simpl. lia.
Defined.

(** ** The callbacks *)

Section Callbacks.
Context (lib : Libs).

Lemma image_callback_history (now : Time) (img : Image lib) (self : ArucoNode) :
  ∀ id, id ≠ 1%Z →
  pose_history (image_callback lib now img self).1.1 !! id = pose_history self !! id.
Proof.
  intros id Hid. unfold image_callback.
  destruct (info_msg self) as [info |]; [|done].
  destruct (detectMarkers lib (imgmsg_to_cv2 lib img)) as [corners [ids |]]; [|done].
  destruct (pose_vectors lib self corners) as [rvecs tvecs].
  destruct (marker_loop lib rvecs tvecs 0 ids (mkLoop (pose_history self) [] [] []))
    as [s r] eqn:Hloop.
  apply marker_loop_inv in Hloop as (Hh & _).
  destruct r; simpl; by apply Hh.
Qed.

(** The shape of everything [image_callback] can put out. *)
Lemma image_callback_effects (now : Time) (img : Image lib) (self : ArucoNode) :
  let out := (image_callback lib now img self).1.2 in
  out = [] ∨ out = [LogWarn "No camera info has been received!"] ∨
  ∃ pa am, out = [PublishPoses pa; PublishMarkers am] ∧
    pa_header pa = am_header am ∧
    pa_poses pa = am_poses am ∧
    length (am_marker_ids am) = length (am_poses am) ∧
    Forall (λ id, id = 1%Z) (am_marker_ids am).
Proof.
  unfold image_callback.
  destruct (info_msg self) as [info |]; [|by right; left].
  destruct (detectMarkers lib (imgmsg_to_cv2 lib img)) as [corners [ids |]]; [|by left].
  destruct (pose_vectors lib self corners) as [rvecs tvecs].
  destruct (marker_loop lib rvecs tvecs 0 ids (mkLoop (pose_history self) [] [] []))
    as [s r] eqn:Hloop.
  apply marker_loop_inv in Hloop as (_ & Hp & Hl & (new & Hn & Hall) & _).
  destruct r; simpl; [by left|].
  right; right. eexists _, _. split; [done|]. simpl in *.
  repeat split; [by apply Hp | by apply Hl | by rewrite Hn].
Qed.

(** A frame with detections, in the Ready state, with a pose vector for
    every marker id: both messages go out, once each. *)
Lemma image_callback_publishes (now : Time) (img : Image lib) (self : ArucoNode)
    (info : CameraInfo) (corners : list (Corner lib)) (ids : list Z) :
  info_msg self = Some info →
  detectMarkers lib (imgmsg_to_cv2 lib img) = (corners, Some ids) →
  (length ids ≤ length (pose_vectors lib self corners).1)%nat →
  (length ids ≤ length (pose_vectors lib self corners).2)%nat →
  ∃ self' pa am,
    image_callback lib now img self
    = (self', [PublishPoses pa; PublishMarkers am], None) ∧
    am_marker_ids am = filter (λ id, id = 1%Z) ids.
Proof.
  intros Hinfo Hdet Hr Ht. unfold image_callback. rewrite Hinfo, Hdet.
  destruct (pose_vectors lib self corners) as [rvecs tvecs]. simpl in Hr, Ht.
  pose proof (marker_loop_returns lib rvecs tvecs ids 0
                (mkLoop (pose_history self) [] [] []) Hr Ht) as Hnone.
  destruct (marker_loop lib rvecs tvecs 0 ids (mkLoop (pose_history self) [] [] []))
    as [s r] eqn:Hloop.
  simpl in Hnone. subst r.
  apply marker_loop_inv in Hloop as (_ & _ & _ & _ & Hf).
  eexists _, _, _. split; [done|]. simpl. by apply Hf.
Qed.

(** In the Ready state, what a frame with detections does to the buffer
    of marker 1. *)
Lemma image_callback_pushes (now : Time) (img : Image lib) (self : ArucoNode)
    (info : CameraInfo) (corners : list (Corner lib)) (ids : list Z) :
  info_msg self = Some info →
  detectMarkers lib (imgmsg_to_cv2 lib img) = (corners, Some ids) →
  (length ids ≤ length (pose_vectors lib self corners).1)%nat →
  (length ids ≤ length (pose_vectors lib self corners).2)%nat →
  history_get (pose_history (image_callback lib now img self).1.1) 1%Z
  = fold_left (deque_append window_size)
              (pushed_entries lib (pose_vectors lib self corners).1
                              (pose_vectors lib self corners).2 ids)
              (history_get (pose_history self) 1%Z).
Proof.
  intros Hinfo Hdet Hr Ht. unfold image_callback. rewrite Hinfo, Hdet.
  destruct (pose_vectors lib self corners) as [rvecs tvecs]. simpl in Hr, Ht |- *.
  pose proof (marker_loop_pushes lib rvecs tvecs ids 0
                (mkLoop (pose_history self) [] [] []) Hr Ht) as Hpush.
  destruct (marker_loop lib rvecs tvecs 0 ids (mkLoop (pose_history self) [] [] []))
    as [s [e |]]; simpl in *; by rewrite Hpush.
Qed.

(** The guard at the top of [image_callback]. *)
Lemma image_callback_no_info (now : Time) (img : Image lib) (self : ArucoNode) :
  info_msg self = None →
  image_callback lib now img self
  = (self, [LogWarn "No camera info has been received!"], None).
Proof. intros Hnone. unfold image_callback. by rewrite Hnone. Qed.

Lemma solve_all_length (self : ArucoNode) (corners : list (Corner lib)) :
  length (solve_all lib self corners).1 = length corners ∧
  length (solve_all lib self corners).2 = length corners.
Proof. unfold solve_all. simpl. by rewrite !length_map. Qed.

Lemma raw_poses_no_tvecs (rvecs : list Vector3) (ids : list Z) :
  raw_poses lib rvecs [] ids = [].
Proof. unfold raw_poses. simpl. by destruct ids. Qed.

Lemma raw_poses_no_rvecs (tvecs : list Vector3) (ids : list Z) :
  raw_poses lib [] tvecs ids = [].
Proof. unfold raw_poses. destruct tvecs; simpl; by destruct ids. Qed.

Lemma raw_poses_cons (rvec position : Vector3) (rvecs tvecs : list Vector3)
    (marker_id : Z) (ids : list Z) :
  raw_poses lib (rvec :: rvecs) (position :: tvecs) (marker_id :: ids)
  = (marker_id, (position, quaternion_from_matrix lib (Rodrigues lib rvec)))
    :: raw_poses lib rvecs tvecs ids.
Proof. done. Qed.

(** When the loop ends normally, the ids and poses it appended, paired by
    position, are the pushes it made: each id with the smoothing of that
    id's buffer right after the push. *)
Lemma marker_loop_labelled (rvecs tvecs : list Vector3) (ids : list Z) : ∀ i s s',
  marker_loop lib rvecs tvecs i ids s = (s', None) →
  length (l_marker_ids s) = length (l_markers_poses s) →
  zip (l_marker_ids s') (map inr (l_markers_poses s'))
  = zip (l_marker_ids s) (map inr (l_markers_poses s))
    ++ map (λ iw, (iw.1, smooth iw.2))
         (labelled_windows (l_history s)
            (filter (λ p, p.1 = 1%Z)
               (raw_poses lib (drop i rvecs) (drop i tvecs) ids))).
Proof.
  induction ids as [| marker_id ids IH]; intros i s s' Hloop Hlen.
  { simpl in Hloop. injection Hloop as <-.
    unfold raw_poses. simpl. by rewrite app_nil_r. }
  simpl in Hloop. case_bool_decide as Hid.
  - rewrite (IH _ _ _ Hloop Hlen). do 3 f_equal.
    destruct (tvecs !! i) as [position |] eqn:Ht;
      [destruct (rvecs !! i) as [rvec |] eqn:Hr|].
    + rewrite (drop_S _ _ _ Ht), (drop_S _ _ _ Hr), raw_poses_cons.
      by rewrite filter_cons_False.
    + apply lookup_ge_None in Hr.
      rewrite !(drop_ge rvecs) by lia. by rewrite !raw_poses_no_rvecs.
    + apply lookup_ge_None in Ht.
      rewrite !(drop_ge tvecs) by lia. by rewrite !raw_poses_no_tvecs.
  - assert (marker_id = 1%Z) as -> by (destruct (decide (marker_id = 1%Z)); done).
    destruct (tvecs !! i) as [position |] eqn:Ht; [|done].
    destruct (rvecs !! i) as [rvec |] eqn:Hr; [|done].
    destruct (smooth (history_get
                (history_append (l_history s) 1
                   (position, quaternion_from_matrix lib (Rodrigues lib rvec))) 1))
      as [e | pose] eqn:Hpose; [done|].
    rewrite (IH _ _ _ Hloop) by (simpl; rewrite !length_app; simpl; lia).
    simpl. rewrite map_app. simpl.
    rewrite zip_with_app by (by rewrite length_map).
    rewrite (drop_S _ _ _ Ht), (drop_S _ _ _ Hr), raw_poses_cons.
    rewrite filter_cons_True by done. cbn [labelled_windows map fst snd].
    rewrite Hpose. by rewrite <- (assoc_L (++)).
Qed.

(** The same for a frame that publishes. *)
Lemma image_callback_labelled (now : Time) (img : Image lib) (self : ArucoNode)
    (am : ArucoMarkers) :
  PublishMarkers am ∈ (image_callback lib now img self).1.2 →
  zip (am_marker_ids am) (map inr (am_poses am))
  = map (λ iw, (iw.1, smooth iw.2))
      (labelled_windows (pose_history self) (frame_pushes lib self img)).
Proof.
  unfold image_callback, frame_pushes.
  destruct (info_msg self) as [info |];
    [| intros Hin; by apply list_elem_of_singleton in Hin].
  destruct (detectMarkers lib (imgmsg_to_cv2 lib img)) as [corners [ids |]];
    [| intros Hin; by apply elem_of_nil in Hin].
  destruct (pose_vectors lib self corners) as [rvecs tvecs].
  destruct (marker_loop lib rvecs tvecs 0 ids (mkLoop (pose_history self) [] [] []))
    as [s [e |]] eqn:Hloop; simpl;
    [intros Hin; by apply elem_of_nil in Hin|].
  intros Hin. apply elem_of_cons in Hin as [Hin | Hin]; [done|].
  apply list_elem_of_singleton in Hin. injection Hin as ->. simpl.
  by rewrite (marker_loop_labelled rvecs tvecs ids 0 _ _ Hloop eq_refl).
Qed.

End Callbacks.

(** ** The claims on [image_callback] *)

(** C1, as the code has it: the marker-id filter (only id 1 passes) runs
    before the pose is computed and pushed.  In the Ready state a frame
    leaves the history buffer of every marker id other than 1 as it was,
    detected or not; every id in the published [ArucoMarkers] is 1; and
    the buffer of marker 1 receives the raw pose of every detection of
    id 1, in order. *)
Theorem image_callback_filter_first (lib : Libs) (now : Time) (img : Image lib)
    (self : ArucoNode) (info : CameraInfo) :
  info_msg self = Some info →
  (∀ id, id ≠ 1%Z →
     pose_history (image_callback lib now img self).1.1 !! id
     = pose_history self !! id) ∧
  (∀ am, PublishMarkers am ∈ (image_callback lib now img self).1.2 →
     Forall (λ id, id = 1%Z) (am_marker_ids am)) ∧
  (∀ corners ids,
     detectMarkers lib (imgmsg_to_cv2 lib img) = (corners, Some ids) →
     (length ids ≤ length (pose_vectors lib self corners).1)%nat →
     (length ids ≤ length (pose_vectors lib self corners).2)%nat →
     history_get (pose_history (image_callback lib now img self).1.1) 1%Z
     = fold_left (deque_append window_size)
                 (pushed_entries lib (pose_vectors lib self corners).1
                                 (pose_vectors lib self corners).2 ids)
                 (history_get (pose_history self) 1%Z)).
Proof.
  intros Hinfo. split; [apply image_callback_history|]. split.
  - intros am Hin.
    destruct (image_callback_effects lib now img self)
      as [Hout | [Hout | (pa & am' & Hout & _ & _ & _ & Hall)]];
      rewrite Hout in Hin.
    + by apply elem_of_nil in Hin.
    + apply list_elem_of_singleton in Hin. done.
    + apply elem_of_cons in Hin as [Hin | Hin]; [done|].
      apply list_elem_of_singleton in Hin. by injection Hin as ->.
  - intros corners ids. by apply (image_callback_pushes lib now img self info).
Qed.

Lemma image_callback_filter_first_witness :
  info_msg Demo.ready = Some Demo.info ∧
  pose_history Demo.filtered_run.1.1 !! 2%Z = pose_history Demo.ready !! 2%Z.
Proof.
  split; [reflexivity|].
  apply (image_callback_filter_first (Demo.libs true) 9%Z (Demo.frame [2%Z])
           Demo.ready Demo.info); [reflexivity | lia].
Defined.

(** C1 as stated fails: with only marker 2 in view of the Ready node, the
    history after the frame is not the history with marker 2's raw pose
    pushed; the buffer of marker 2 does not exist. *)
Lemma filtered_marker_not_pushed :
  pose_history Demo.filtered_run.1.1 !! 2%Z = None ∧
  pose_history Demo.filtered_run.1.1
  ≠ history_append (pose_history Demo.ready) 2%Z Demo.raw.
Proof.
  split; [by vm_compute|].
  intros Heq. apply (f_equal (λ h, h !! 2%Z)) in Heq.
  unfold history_append in Heq. rewrite lookup_insert_eq in Heq.
  vm_compute in Heq. discriminate.
Qed.

(** C2, as the code has it: [retval] of [solvePnP] is never read.  Whatever
    flag the solver returns, [image_callback] leaves the same node, the
    same history and the same output: a marker the solver fails on is
    pushed and emitted with the vectors the solver returned, and the other
    markers of the frame are processed as they are without the failure. *)
Theorem image_callback_ignores_retval (lib : Libs) (b : bool) (now : Time)
    (img : Image lib) (self : ArucoNode) :
  image_callback (with_retval b lib) now img self = image_callback lib now img self.
Proof.
  unfold image_callback.
  destruct (info_msg self) as [info |]; [|done].
  change (detectMarkers (with_retval b lib) (imgmsg_to_cv2 (with_retval b lib) img))
    with (detectMarkers lib (imgmsg_to_cv2 lib img)).
  destruct (detectMarkers lib (imgmsg_to_cv2 lib img)) as [corners [ids |]]; [|done].
  assert (Hpv : pose_vectors (with_retval b lib) self corners
                = pose_vectors lib self corners).
  { unfold pose_vectors. simpl.
    destruct (String.ltb "4.0.0" (cv2_version lib)); [|done].
    unfold solve_all. rewrite !map_map. simpl.
    f_equal; apply map_ext; intros corner;
      by destruct (solvePnP lib _ corner _ _) as [[retval rvec] tvec]. }
  rewrite Hpv. done.
Qed.

(** C2 as stated fails: the solver reports failure on marker 1, and marker
    1 is in the published batch and in the history all the same. *)
Lemma failed_solve_still_emitted :
  (solvePnP (Demo.libs false) (obj_points (marker_size Demo.ready)) 1%Z
            (intrinsic_mat Demo.ready) (distortion Demo.ready)).1.1 = false ∧
  (∃ pa am, Demo.failed_run.1.2 = [PublishPoses pa; PublishMarkers am] ∧
            am_marker_ids am = [1%Z] ∧ length (pa_poses pa) = 1%nat) ∧
  pose_history Demo.failed_run.1.1 !! 1%Z = Some [Demo.raw].
Proof.
  split; [reflexivity|]. split; [|by vm_compute].
  eexists _, _. split; [by vm_compute|]. by split.
Qed.

(** C3, as the code has it: without camera info the callback logs one
    warning and returns; it publishes nothing, not even an empty batch,
    raises nothing, and leaves the node, its history buffers included,
    as it was.  So does every run of frames that arrive before the first
    camera-info message: one warning per frame and nothing else. *)
Theorem image_callback_awaiting_calibration (lib : Libs) (self : ArucoNode) :
  info_msg self = None →
  (∀ now img,
     image_callback lib now img self
     = (self, [LogWarn "No camera info has been received!"], None)) ∧
  (∀ ms : list (Incoming lib),
     Forall (λ x, ∃ now img, x = InImage lib now img) ms →
     spin lib ms self
     = (self, map (λ _, LogWarn "No camera info has been received!") ms, None)).
Proof.
  intros Hnone.
  assert (Hone : ∀ now img,
            image_callback lib now img self
            = (self, [LogWarn "No camera info has been received!"], None)).
  { intros now img. unfold image_callback. by rewrite Hnone. }
  split; [exact Hone|].
  induction ms as [| x ms IH]; intros Hall; simpl; [done|].
  apply Forall_cons in Hall as [(now & img & ->) Hall]. simpl.
  rewrite Hone, (IH Hall). done.
Qed.

Lemma image_callback_awaiting_calibration_witness :
  info_msg Demo.fresh = None ∧
  Demo.early_run = (Demo.fresh, [LogWarn "No camera info has been received!"], None).
Proof.
  split; [reflexivity|].
  apply (image_callback_awaiting_calibration (Demo.libs true) Demo.fresh).
  reflexivity.
Defined.

(** C3 as stated fails: no batch is emitted for a frame that arrives
    before the camera info, empty or not. *)
Lemma early_frame_emits_nothing :
  info_msg Demo.fresh = None ∧
  ¬ (∃ pa, PublishPoses pa ∈ Demo.early_run.1.2) ∧
  ¬ (∃ am, PublishMarkers am ∈ Demo.early_run.1.2).
Proof.
  split; [reflexivity|].
  split; intros [m Hin]; apply list_elem_of_singleton in Hin; discriminate.
Qed.




(** C10: whenever a frame publishes, the poses of the [PoseArray] are the
    poses of the [ArucoMarkers], element for element; the marker ids are
    as many as the poses; the two headers agree; and the i-th id labels
    the i-th pose: paired by position, ids and poses are, in the order of
    detection, the marker id of each detection the loop lets through with
    the smoothing of that marker's buffer right after its raw pose was
    pushed. *)
Theorem published_messages_agree (lib : Libs) (now : Time) (img : Image lib)
    (self : ArucoNode) (pa : PoseArray) (am : ArucoMarkers) :
  PublishPoses pa ∈ (image_callback lib now img self).1.2 →
  PublishMarkers am ∈ (image_callback lib now img self).1.2 →
  pa_poses pa = am_poses am ∧
  length (am_marker_ids am) = length (am_poses am) ∧
  pa_header pa = am_header am ∧
  zip (am_marker_ids am) (map inr (am_poses am))
  = map (λ iw, (iw.1, smooth iw.2))
      (labelled_windows (pose_history self) (frame_pushes lib self img)).
Proof.
  intros Hpa Ham.
  pose proof (image_callback_labelled lib now img self am Ham) as Hlabel.
  destruct (image_callback_effects lib now img self)
    as [Hout | [Hout | (pa' & am' & Hout & Hh & Hp & Hl & _)]];
    rewrite Hout in Hpa, Ham.
  - by apply elem_of_nil in Hpa.
  - by apply list_elem_of_singleton in Hpa.
  - apply elem_of_cons in Hpa as [Hpa | Hpa];
      [| by apply list_elem_of_singleton in Hpa].
    apply elem_of_cons in Ham as [Ham | Ham]; [done|].
    apply list_elem_of_singleton in Ham.
    injection Hpa as ->. injection Ham as ->. done.
Qed.

Lemma published_messages_agree_witness :
  ∃ pa am,
    Demo.run.1.2 = [PublishPoses pa; PublishMarkers am] ∧
    pa_poses pa = am_poses am ∧
    length (am_marker_ids am) = length (am_poses am) ∧
    pa_header pa = am_header am ∧
    zip (am_marker_ids am) (map inr (am_poses am))
    = [(1%Z, smooth [Demo.raw])].
Proof.
  eexists _, _. split; [by vm_compute|].
  apply (published_messages_agree (Demo.libs true) 9%Z (Demo.frame [2%Z; 1%Z])
           Demo.ready).
  - change (image_callback (Demo.libs true) 9%Z (Demo.frame [2%Z; 1%Z]) Demo.ready)
      with Demo.run.
    vm_compute. apply list_elem_of_here.
  - change (image_callback (Demo.libs true) 9%Z (Demo.frame [2%Z; 1%Z]) Demo.ready)
      with Demo.run.
    vm_compute. apply list_elem_of_further, list_elem_of_here.
Defined.

(** ** Calibration across the node's lifetime *)

Section Calibration.
Context (lib : Libs).

Lemma image_callback_calibration (now : Time) (img : Image lib) (self : ArucoNode) :
  let self' := (image_callback lib now img self).1.1 in
  info_msg self' = info_msg self ∧ intrinsic_mat self' = intrinsic_mat self ∧
  distortion self' = distortion self ∧ info_sub self' = info_sub self.
Proof.
  unfold image_callback.
  destruct (info_msg self) as [info |] eqn:Hinfo; [|done].
  destruct (detectMarkers lib (imgmsg_to_cv2 lib img)) as [corners [ids |]]; [|done].
  destruct (pose_vectors lib self corners) as [rvecs tvecs].
  destruct (marker_loop lib rvecs tvecs 0 ids (mkLoop (pose_history self) [] [] []))
    as [s [e |]]; done.
Qed.

Lemma deliver_calibrated (m : CameraInfo) (x : Incoming lib) (self : ArucoNode) :
  calibrated_by m self → calibrated_by m (deliver lib x self).1.1.
Proof.
  intros (Hi & Hk & Hd & Hs). destruct x as [msg | now img]; simpl.
  - by rewrite Hs.
  - destruct (image_callback_calibration now img self) as (Hi' & Hk' & Hd' & Hs').
    unfold calibrated_by. simpl in *. by rewrite Hi', Hk', Hd', Hs'.
Qed.

Lemma spin_calibrated (m : CameraInfo) (ms : list (Incoming lib)) : ∀ self,
  calibrated_by m self → calibrated_by m (spin lib ms self).1.1.
Proof.
  induction ms as [| x ms IH]; intros self Hc; simpl; [done|].
  pose proof (deliver_calibrated m x self Hc) as Hc'.
  destruct (deliver lib x self) as [[self' out] [e |]]; simpl in *; [done|].
  specialize (IH self' Hc').
  by destruct (spin lib ms self') as [[self'' out'] r].
Qed.

(** Frames that arrive before any camera info are dropped one by one. *)
Lemma spin_awaiting (ms : list (Incoming lib)) : ∀ self,
  info_msg self = None →
  Forall (λ x, ∃ now img, x = InImage lib now img) ms →
  ∃ out, spin lib ms self = (self, out, None).
Proof.
  induction ms as [| x ms IH]; intros self Hnone Hall; simpl; [by eexists|].
  apply Forall_cons in Hall as [(now & img & ->) Hall]. simpl.
  rewrite image_callback_no_info by done.
  destruct (IH self Hnone Hall) as [out ->]. by eexists.
Qed.

Lemma spin_app (ms1 ms2 : list (Incoming lib)) : ∀ self self1 out1,
  spin lib ms1 self = (self1, out1, None) →
  (spin lib (ms1 ++ ms2) self).1.1 = (spin lib ms2 self1).1.1.
Proof.
  induction ms1 as [| x ms1 IH]; intros self self1 out1 Hspin; simpl in *.
  - by injection Hspin as ->.
  - destruct (deliver lib x self) as [[self' out] [e |]]; [done|].
    destruct (spin lib ms1 self') as [[self'' out'] r] eqn:Hrest.
    injection Hspin as -> _ ->.
    specialize (IH self' self1 out' Hrest).
    destruct (spin lib (ms1 ++ ms2) self') as [[t o] r']. simpl in *. done.
Qed.

End Calibration.

(** C8: the calibration is set from the first camera-info message the
    node receives, whose callback destroys the subscription, and nothing
    changes it afterwards: however the run goes on after that message, with
    further camera-info messages and frames, the stored message, the
    intrinsic matrix and the distortion coefficients are those of the first
    message, and the subscription is gone. *)
Theorem calibration_set_once (lib : Libs) (size : R) (frame : string) (t0 : Time)
    (ms1 ms2 : list (Incoming lib)) (m : CameraInfo) :
  Forall (λ x, ∃ now img, x = InImage lib now img) ms1 →
  calibrated_by m (spin lib (ms1 ++ InInfo lib m :: ms2) (init size frame t0)).1.1.
Proof.
  intros Hall.
  destruct (spin_awaiting lib ms1 (init size frame t0) eq_refl Hall) as [out Hspin].
  rewrite (spin_app lib ms1 (InInfo lib m :: ms2) _ _ _ Hspin).
  simpl.
  pose proof (spin_calibrated lib m ms2 (info_callback m (init size frame t0))) as Hc.
  destruct (spin lib ms2 (info_callback m (init size frame t0))) as [[self' out'] r].
  apply Hc. by repeat split.
Qed.

Lemma calibration_set_once_witness :
  calibrated_by Demo.info
    (spin (Demo.libs true) (Demo.before ++ InInfo (Demo.libs true) Demo.info :: Demo.after)
          Demo.fresh).1.1.
Proof.
  apply (calibration_set_once (Demo.libs true) (1 / 16)%R "" 0%Z
           Demo.before Demo.after Demo.info).
  repeat constructor; eexists _, _; reflexivity.
Defined.

(** * Further properties of the node *)

(** ** More on the smoothing *)

Section SlerpUnit.
Local Open Scope R_scope.

Lemma q_dot_unit_vector (q : Quaternion) :
  q ≠ mkQ 0 0 0 0 → q_dot (unit_vector q) (unit_vector q) = 1.
Proof.
  intros Hq. pose proof (q_norm_normalized q (q_norm_nonzero q Hq)) as Hn.
  unfold q_norm in Hn. fold (unit_vector q) in Hn.
  rewrite <- (sqrt_sqrt (q_dot (unit_vector q) (unit_vector q)))
    by apply q_dot_self_nonneg.
  rewrite Hn. lra.
Qed.

(** Cauchy-Schwarz for unit arrays of shape (4,). *)
Lemma q_dot_unit_bound (a b : Quaternion) :
  q_dot a a = 1 → q_dot b b = 1 → -1 <= q_dot a b <= 1.
Proof.
  intros Ha Hb.
  assert (Hp : 0 <= q_dot (q_add a b) (q_add a b)) by apply q_dot_self_nonneg.
  assert (Hm : 0 <= q_dot (q_add a (q_scale (-1) b)) (q_add a (q_scale (-1) b)))
    by apply q_dot_self_nonneg.
  destruct a as [ax ay az aw], b as [bx b_y bz bw].
  unfold q_dot, q_add, q_scale in *. simpl in *. lra.
Qed.

Lemma q_dot_sum_scaled (s : R) (a b : Quaternion) :
  q_dot (q_add (q_scale s a) (q_scale s b)) (q_add (q_scale s a) (q_scale s b))
  = s * s * (q_dot a a + 2 * q_dot a b + q_dot b b).
Proof. destruct a, b. unfold q_dot, q_add, q_scale. simpl. ring. Qed.

(** The half-way point on the arc between two unit quaternions at an angle
    strictly between 0 and pi is a unit quaternion. *)
Lemma half_arc_unit (a b : Quaternion) :
  q_dot a a = 1 → q_dot b b = 1 → 0 <= q_dot a b < 1 →
  let angle := acos (q_dot a b) in
  let isin := 1 / sin angle in
  q_dot (q_add (q_scale (sin ((1 - 1 / 2) * angle) * isin) a)
               (q_scale (sin (1 / 2 * angle) * isin) b))
        (q_add (q_scale (sin ((1 - 1 / 2) * angle) * isin) a)
               (q_scale (sin (1 / 2 * angle) * isin) b)) = 1.
Proof.
  intros Ha Hb Hd angle isin.
  replace ((1 - 1 / 2) * angle) with (1 / 2 * angle) by lra.
  rewrite q_dot_sum_scaled, Ha, Hb.
  assert (Hcos : cos angle = q_dot a b) by (apply cos_acos; lra).
  assert (Hsin : 0 < sin angle).
  { unfold angle. rewrite sin_acos by lra. apply sqrt_lt_R0.
    unfold Rsqr. nra. }
  set (h := 1 / 2 * angle) in *.
  assert (Hangle : angle = 2 * h) by (unfold h; lra).
  rewrite <- Hcos. unfold isin. rewrite Hangle in Hsin |- *.
  rewrite sin_2a in Hsin |- *. rewrite cos_2a_cos.
  assert (Hsh : sin h ≠ 0) by (intros E; rewrite E in Hsin; lra).
  assert (Hch : cos h ≠ 0) by (intros E; rewrite E in Hsin; lra).
  field. split; done.
Qed.

(** [quaternion_slerp] at 1/2 returns a unit quaternion for every pair of
    operands other than the zero array. *)
Lemma slerp_half_unit (q0 q1 : Quaternion) :
  q0 ≠ mkQ 0 0 0 0 → q1 ≠ mkQ 0 0 0 0 →
  q_dot (quaternion_slerp q0 q1 (1 / 2)) (quaternion_slerp q0 q1 (1 / 2)) = 1.
Proof.
  intros H0 H1. unfold quaternion_slerp.
  pose proof (q_dot_unit_vector q0 H0) as Hu0.
  pose proof (q_dot_unit_vector q1 H1) as Hu1.
  set (u0 := unit_vector q0) in *. set (u1 := unit_vector q1) in *.
  pose proof (q_dot_unit_bound u0 u1 Hu0 Hu1) as Hb.
  destruct (Req_dec_T (1 / 2) 0) as [E | _]; [lra|].
  destruct (Req_dec_T (1 / 2) 1) as [E | _]; [lra|].
  destruct (Rlt_dec (Rabs (Rabs (q_dot u0 u1) - 1)) _EPS) as [_ | Hfar]; [done|].
  assert (Hne : Rabs (q_dot u0 u1) ≠ 1).
  { intros E. apply Hfar. rewrite E. replace (1 - 1) with 0 by lra.
    rewrite Rabs_R0. unfold _EPS. apply Rdiv_lt_0_compat; [lra|].
    apply pow_lt. lra. }
  destruct (Rlt_dec (q_dot u0 u1) 0) as [Hneg | Hpos].
  - rewrite Rabs_left in Hne by done.
    destruct (Rlt_dec (Rabs (acos (- q_dot u0 u1))) _EPS) as [_ | _]; [done|].
    replace (- q_dot u0 u1) with (q_dot u0 (q_scale (-1) u1))
      by (destruct u0, u1; unfold q_dot, q_scale; simpl; ring).
    apply half_arc_unit; [done | |].
    + destruct u1. unfold q_dot, q_scale in *. simpl in *. lra.
    + replace (q_dot u0 (q_scale (-1) u1)) with (- q_dot u0 u1)
        by (destruct u0, u1; unfold q_dot, q_scale; simpl; ring).
      lra.
  - rewrite Rabs_pos_eq in Hne by lra.
    destruct (Rlt_dec (Rabs (acos (q_dot u0 u1))) _EPS) as [_ | _]; [done|].
    apply half_arc_unit; [done | done | lra].
Qed.

End SlerpUnit.

Section SmoothMore.
Local Open Scope R_scope.

Lemma q_unit_nonzero (q : Quaternion) : q_dot q q = 1 → q ≠ mkQ 0 0 0 0.
Proof. intros Hq ->. unfold q_dot in Hq. simpl in Hq. lra. Qed.

Lemma blend_quat_unit (q : Quaternion) (rest : list Quaternion) : ∀ q0,
  q0 ≠ mkQ 0 0 0 0 →
  Forall (λ r, r ≠ mkQ 0 0 0 0) (q :: rest) →
  q_dot (blend_quat q0 (q :: rest)) (blend_quat q0 (q :: rest)) = 1.
Proof.
  revert q. induction rest as [| r rest IH]; intros q q0 H0 Hall.
  - apply Forall_cons in Hall as [Hq _]. unfold blend_quat. simpl.
    by apply slerp_half_unit.
  - apply Forall_cons in Hall as [Hq Hall].
    change (blend_quat q0 (q :: r :: rest))
      with (blend_quat (quaternion_slerp q0 q (1 / 2)) (r :: rest)).
    apply IH; [|done]. by apply q_unit_nonzero, slerp_half_unit.
Qed.

Lemma fold_v3_add_permutation (ps ps' : list Vector3) :
  ps ≡ₚ ps' → ∀ acc, fold_left v3_add ps acc = fold_left v3_add ps' acc.
Proof.
  induction 1 as [| p ps ps' _ IH | p p' ps | ps ps' ps'' _ IH1 _ IH2];
    intros acc; simpl.
  - done.
  - apply IH.
  - f_equal. destruct acc, p, p'. unfold v3_add. simpl. f_equal; lra.
  - by rewrite IH1.
Qed.

Lemma fold_v3_add_replicate (n : nat) (p : Vector3) : ∀ acc,
  fold_left v3_add (replicate n p) acc
  = mkV3 (vx acc + INR n * vx p) (vy acc + INR n * vy p) (vz acc + INR n * vz p).
Proof.
  induction n as [| n IH]; intros acc.
  - destruct acc. simpl. f_equal; lra.
  - cbn [replicate fold_left]. rewrite IH, S_INR. destruct acc, p.
    unfold v3_add. simpl. f_equal; lra.
Qed.

(** [quaternion_slerp] of two operands with the same direction returns
    that direction, at every fraction. *)
Lemma slerp_parallel (a b : Quaternion) (t : R) :
  unit_vector a = unit_vector b →
  q_dot (unit_vector a) (unit_vector a) = 1 →
  quaternion_slerp a b t = unit_vector a.
Proof.
  intros Hsame Hunit. unfold quaternion_slerp. rewrite <- Hsame.
  destruct (Req_dec_T t 0); [done|]. destruct (Req_dec_T t 1); [done|].
  rewrite Hunit.
  destruct (Rlt_dec (Rabs (Rabs 1 - 1)) _EPS) as [_ | Hfar]; [done|].
  exfalso. apply Hfar. rewrite Rabs_R1. replace (1 - 1) with 0 by lra.
  rewrite Rabs_R0. unfold _EPS. apply Rdiv_lt_0_compat; [lra|].
  apply pow_lt. lra.
Qed.

Lemma blend_quat_replicate (n : nat) (q : Quaternion) :
  q ≠ mkQ 0 0 0 0 → blend_quat q (replicate (S n) q) = unit_vector q.
Proof.
  intros Hq. pose proof (q_dot_unit_vector q Hq) as Hu.
  unfold blend_quat. cbn [replicate fold_left].
  rewrite slerp_parallel by done.
  induction n as [| n IH]; [done|].
  cbn [replicate fold_left].
  rewrite slerp_parallel by (by rewrite unit_vector_unit).
  by rewrite unit_vector_unit.
Qed.

End SmoothMore.

(** X1: on a window of quaternions none of which is the zero array,
    smoothing returns a pose whose orientation has norm 1; when the window
    has two entries or more, the cascade of half-way slerps already has
    norm 1, so the final division by the norm changes nothing. *)
Theorem smooth_unit_orientation (e : Entry) (rest : list Entry) :
  Forall (λ p : Entry, p.2 ≠ mkQ 0 0 0 0) (e :: rest) →
  (∃ pose, smooth (e :: rest) = inr pose ∧ q_norm (orientation pose) = 1%R) ∧
  (rest ≠ [] →
   avg_quat (map snd (e :: rest)) = inr (blend_quat e.2 (map snd rest))).
Proof.
  intros Hall. apply Forall_cons in Hall as [He Hrest].
  assert (Hrest' : Forall (λ r, r ≠ mkQ 0 0 0 0) (map snd rest)).
  { clear -Hrest. induction Hrest; simpl; by constructor. }
  split.
  - unfold smooth. simpl. eexists. split; [done|]. simpl.
    apply q_norm_normalized, q_norm_nonzero.
    destruct (map snd rest) as [| q qs]; [done|].
    by apply q_unit_nonzero, blend_quat_unit.
  - intros Hne. simpl. destruct rest as [| e' rest]; [done|]. simpl in *.
    rewrite q_norm_unit by (by apply blend_quat_unit).
    by rewrite q_div_one.
Qed.

Lemma smooth_unit_orientation_witness :
  ∃ pose, smooth [Demo.entry 1; Demo.entry 2] = inr pose ∧
          q_norm (orientation pose) = 1%R.
Proof.
  apply (smooth_unit_orientation (Demo.entry 1) [Demo.entry 2]).
  repeat constructor; simpl; intros [=]; lra.
Defined.

(** X2: in exact arithmetic, a window that holds the same pose one or
    more times, with an orientation other than the zero array, smooths to
    the position of that pose and to its orientation scaled to unit
    length: the mean of equal positions is the position, and every slerp
    of the cascade and the final division return the quaternion over its
    norm.  The pose comes back as it is when its orientation has
    norm 1. *)
Theorem smooth_repeated_pose (n : nat) (p : Vector3) (q : Quaternion) :
  q ≠ mkQ 0 0 0 0 →
  smooth (replicate (S n) (p, q)) = inr (mkPose p (unit_vector q)) ∧
  (q_norm q = 1%R → smooth (replicate (S n) (p, q)) = inr (mkPose p q)).
Proof.
  intros Hq.
  assert (Hmean : np_mean (replicate (S n) p) = p).
  { unfold np_mean. rewrite fold_v3_add_replicate, length_replicate.
    assert (Hn : INR (S n) ≠ 0%R) by (apply not_0_INR; lia).
    destruct p as [x y z]. unfold v3_div, v3_zero. cbn [vx vy vz].
    f_equal; field; done. }
  assert (Hquat : avg_quat (replicate (S n) q) = inr (unit_vector q)).
  { unfold avg_quat. cbn [replicate]. destruct n as [| n]; [done|].
    rewrite blend_quat_replicate by done.
    rewrite q_norm_unit by (by apply q_dot_unit_vector).
    by rewrite q_div_one. }
  assert (Hsmooth : smooth (replicate (S n) (p, q))
                    = inr (mkPose p (unit_vector q))).
  { unfold smooth, avg_position. rewrite !fmap_replicate. cbn [fst snd].
    by rewrite Hquat, Hmean. }
  split; [exact Hsmooth|].
  intros Hone. rewrite Hsmooth. unfold unit_vector. fold (q_norm q).
  by rewrite Hone, q_div_one.
Qed.

Lemma smooth_repeated_pose_witness :
  smooth [(mkV3 0 0 1, mkQ 0 0 0 2); (mkV3 0 0 1, mkQ 0 0 0 2)]
  = inr (mkPose (mkV3 0 0 1) (unit_vector (mkQ 0 0 0 2))).
Proof.
  apply (smooth_repeated_pose 1 (mkV3 0 0 1) (mkQ 0 0 0 2)).
  intros [=]. lra.
Defined.

(** X3: the smoothed position does not depend on the order of the window:
    two windows that are permutations of each other have the same mean
    position. *)
Theorem avg_position_permutation (poses poses' : list Entry) :
  poses ≡ₚ poses' → avg_position poses = avg_position poses'.
Proof.
  intros Hperm. unfold avg_position, np_mean.
  assert (Hmap : map fst poses ≡ₚ map fst poses') by (by apply fmap_Permutation).
  rewrite (fold_v3_add_permutation _ _ Hmap).
  by rewrite (Permutation_length Hmap).
Qed.

Lemma avg_position_permutation_witness :
  avg_position [Demo.entry 1; Demo.entry 2; Demo.entry 3]
  = avg_position [Demo.entry 3; Demo.entry 1; Demo.entry 2].
Proof.
  apply avg_position_permutation. symmetry.
  apply (Permutation_cons_append [Demo.entry 1; Demo.entry 2] (Demo.entry 3)).
Defined.

(** ** More on [image_callback] *)

Section LoopMore.
Context (lib : Libs).
Implicit Types (s : Loop) (ids : list Z) (rvecs tvecs : list Vector3).

(** Detections of other ids leave the loop state as it is. *)
Lemma marker_loop_filtered rvecs tvecs ids : ∀ i s,
  Forall (λ id, id ≠ 1%Z) ids →
  marker_loop lib rvecs tvecs i ids s = (s, None).
Proof.
  induction ids as [| marker_id ids IH]; intros i s Hall; simpl; [done|].
  apply Forall_cons in Hall as [Hid Hall].
  rewrite bool_decide_eq_true_2 by done. by apply IH.
Qed.

(** A detection of id 1 at an index without pose vector ends the loop
    with [IndexError]. *)
Lemma marker_loop_index_error rvecs tvecs ids : ∀ j i s,
  ids !! j = Some 1%Z →
  (length tvecs ≤ i + j ∨ length rvecs ≤ i + j)%nat →
  (marker_loop lib rvecs tvecs i ids s).2 = Some IndexError.
Proof.
  induction ids as [| marker_id ids IH]; intros j i s Hj Hshort; [done|].
  simpl. destruct j as [| j]; simpl in Hj.
  - injection Hj as ->. rewrite bool_decide_eq_false_2 by (intros Hne; by apply Hne).
    rewrite Nat.add_0_r in Hshort.
    destruct (tvecs !! i) as [position |] eqn:Ht; [|done].
    destruct (rvecs !! i) as [rvec |] eqn:Hr; [|done].
    apply lookup_lt_Some in Ht, Hr. lia.
  - assert (Hrec : ∀ s', (marker_loop lib rvecs tvecs (S i) ids s').2
                         = Some IndexError).
    { intros s'. apply (IH j); [done | lia]. }
    case_bool_decide; [apply Hrec|].
    destruct (tvecs !! i) as [position |]; [|done].
    destruct (rvecs !! i) as [rvec |]; [|done].
    match goal with
    | |- context [smooth (history_get (history_append ?h ?id ?e) ?id)] =>
        destruct (smooth_after_append h id e) as [pose ->]
    end.
    apply Hrec.
Qed.

(** With a pose vector for every index, the poses the loop appends are the
    smoothed windows the buffer of marker 1 goes through. *)
Lemma marker_loop_poses rvecs tvecs ids : ∀ i s,
  (i + length ids ≤ length rvecs)%nat →
  (i + length ids ≤ length tvecs)%nat →
  map inr (l_pose_array (marker_loop lib rvecs tvecs i ids s).1)
  = map inr (l_pose_array s)
    ++ map smooth (windows (history_get (l_history s) 1%Z)
                     (pushed_entries lib (drop i rvecs) (drop i tvecs) ids)).
Proof.
  induction ids as [| marker_id ids IH]; intros i s Hr Ht; simpl.
  { by rewrite app_nil_r. }
  simpl in Hr, Ht.
  destruct (lookup_lt_is_Some_2 tvecs i) as [position Hpos]; [lia|].
  destruct (lookup_lt_is_Some_2 rvecs i) as [rvec Hrvec]; [lia|].
  unfold pushed_entries, raw_poses.
  rewrite (drop_S _ _ _ Hpos), (drop_S _ _ _ Hrvec). simpl.
  case_bool_decide as Hid.
  - rewrite filter_cons_False by done. apply IH; lia.
  - assert (marker_id = 1%Z) as -> by (destruct (decide (marker_id = 1%Z)); done).
    rewrite Hpos, Hrvec. rewrite filter_cons_True by done. simpl.
    match goal with
    | |- context [smooth (history_get (history_append ?h ?id ?e) ?id)] =>
        destruct (smooth_after_append h id e) as [pose Hpose]
    end.
    rewrite Hpose, IH by lia. simpl.
    rewrite history_get_append_eq in Hpose |- *.
    rewrite Hpose, map_app. simpl. by rewrite <- (assoc_L (++)).
Qed.

End LoopMore.

Section HistoryInvariant.
Context (lib : Libs).

Lemma history_append_ok (h : gmap Z (list Entry)) (e : Entry) :
  history_ok h → history_ok (history_append h 1%Z e).
Proof.
  intros Hok id d Hlook. unfold history_append in Hlook.
  destruct (decide (id = 1%Z)) as [-> | Hne].
  - rewrite lookup_insert_eq in Hlook. injection Hlook as <-.
    split; [done|]. split.
    + pose proof (deque_append_nonempty window_size (history_get h 1%Z) e) as Hne.
      destruct (deque_append window_size (history_get h 1%Z) e); simpl; [|lia].
      exfalso. apply Hne; [unfold window_size; lia | done].
    + apply deque_append_length. unfold history_get.
      destruct (h !! 1%Z) as [d |] eqn:Hd; simpl; [|lia].
      by apply (Hok _ _ Hd).
  - rewrite lookup_insert_ne in Hlook by done. by apply Hok.
Qed.

Lemma marker_loop_history_ok (rvecs tvecs : list Vector3) (ids : list Z) : ∀ i s,
  history_ok (l_history s) →
  history_ok (l_history (marker_loop lib rvecs tvecs i ids s).1).
Proof.
  induction ids as [| marker_id ids IH]; intros i s Hok; simpl; [done|].
  case_bool_decide as Hid; [by apply IH|].
  assert (marker_id = 1%Z) as -> by (destruct (decide (marker_id = 1%Z)); done).
  destruct (tvecs !! i) as [position |]; [|done].
  destruct (rvecs !! i) as [rvec |]; [|done].
  match goal with
  | |- context [smooth (history_get (history_append ?h ?id ?e) ?id)] =>
      destruct (smooth_after_append h id e) as [pose ->];
      pose proof (history_append_ok h e Hok)
  end.
  by apply IH.
Qed.

Lemma image_callback_history_ok (now : Time) (img : Image lib) (self : ArucoNode) :
  history_ok (pose_history self) →
  history_ok (pose_history (image_callback lib now img self).1.1).
Proof.
  intros Hok. unfold image_callback.
  destruct (info_msg self) as [info |]; [|done].
  destruct (detectMarkers lib (imgmsg_to_cv2 lib img)) as [corners [ids |]]; [|done].
  destruct (pose_vectors lib self corners) as [rvecs tvecs].
  pose proof (marker_loop_history_ok rvecs tvecs ids 0
                (mkLoop (pose_history self) [] [] []) Hok) as Hok'.
  by destruct (marker_loop lib rvecs tvecs 0 ids (mkLoop (pose_history self) [] [] []))
    as [s [e |]].
Qed.

Lemma spin_history_ok (ms : list (Incoming lib)) : ∀ self,
  history_ok (pose_history self) →
  history_ok (pose_history (spin lib ms self).1.1).
Proof.
  induction ms as [| m ms IH]; intros self Hok; simpl; [done|].
  assert (Hok' : history_ok (pose_history (deliver lib m self).1.1)).
  { destruct m as [msg | now img]; simpl.
    - by destruct (info_sub self).
    - by apply image_callback_history_ok. }
  destruct (deliver lib m self) as [[self' out] [e |]]; simpl in *; [done|].
  specialize (IH self' Hok').
  by destruct (spin lib ms self') as [[self'' out'] r].
Qed.

End HistoryInvariant.

(** X4: however the node runs from its construction, its history never
    holds a buffer for a marker id other than 1, and the buffer of marker
    1, once it exists, holds at least one and at most [window_size]
    entries. *)
Theorem spin_history_bounded (lib : Libs) (size : R) (frame : string) (t0 : Time)
    (ms : list (Incoming lib)) (id : Z) (d : list Entry) :
  pose_history (spin lib ms (init size frame t0)).1.1 !! id = Some d →
  id = 1%Z ∧ (1 ≤ length d ≤ window_size)%nat.
Proof.
  apply (spin_history_ok lib ms (init size frame t0)).
  intros id' d' Hlook. simpl in Hlook. by rewrite lookup_empty in Hlook.
Qed.

Lemma spin_history_bounded_witness :
  pose_history
    (spin (Demo.libs true)
          (Demo.before ++ InInfo (Demo.libs true) Demo.info :: Demo.after)
          Demo.fresh).1.1 !! 1%Z = Some [Demo.raw; Demo.raw] ∧
  (1 ≤ length [Demo.raw; Demo.raw] ≤ window_size)%nat.
Proof.
  assert (H : pose_history
                (spin (Demo.libs true)
                   (Demo.before ++ InInfo (Demo.libs true) Demo.info :: Demo.after)
                   Demo.fresh).1.1 !! 1%Z = Some [Demo.raw; Demo.raw])
    by (by vm_compute).
  split; [exact H|].
  exact (proj2 (spin_history_bounded (Demo.libs true) (1 / 16)%R "" 0%Z _ _ _ H)).
Defined.

(** X5: in the Ready state, a frame in which the detector reports markers
    but none of id 1 publishes both messages with no pose and no id, under
    the frame's header, raises nothing and leaves every history buffer as
    it was, even when marker 1 has a buffer from earlier frames. *)
Theorem image_callback_marker_absent (lib : Libs) (now : Time) (img : Image lib)
    (self : ArucoNode) (info : CameraInfo) (corners : list (Corner lib))
    (ids : list Z) :
  info_msg self = Some info →
  detectMarkers lib (imgmsg_to_cv2 lib img) = (corners, Some ids) →
  Forall (λ id, id ≠ 1%Z) ids →
  image_callback lib now img self
  = (set_history self now (pose_history self),
     [ PublishPoses (mkPoseArray (out_header lib self info img) []);
       PublishMarkers (mkArucoMarkers (out_header lib self info img) [] []) ],
     None).
Proof.
  intros Hinfo Hdet Hall. unfold image_callback. rewrite Hinfo, Hdet.
  destruct (pose_vectors lib self corners) as [rvecs tvecs].
  by rewrite marker_loop_filtered.
Qed.

Lemma image_callback_marker_absent_witness :
  Demo.filtered_run
  = (set_history Demo.ready 9%Z (pose_history Demo.ready),
     [ PublishPoses (mkPoseArray (mkHeader 7%Z "camera") []);
       PublishMarkers (mkArucoMarkers (mkHeader 7%Z "camera") [] []) ],
     None).
Proof.
  apply (image_callback_marker_absent (Demo.libs true) 9%Z (Demo.frame [2%Z])
           Demo.ready Demo.info [2%Z] [2%Z]); [reflexivity | reflexivity |].
  repeat constructor. lia.
Defined.

(** X6: every message a frame publishes carries the stamp of the image
    and, as frame id, the [camera_frame] parameter, or the frame id of the
    stored camera info when that parameter is empty. *)
Theorem published_header (lib : Libs) (now : Time) (img : Image lib)
    (self : ArucoNode) (info : CameraInfo) :
  info_msg self = Some info →
  (∀ pa, PublishPoses pa ∈ (image_callback lib now img self).1.2 →
         pa_header pa = out_header lib self info img) ∧
  (∀ am, PublishMarkers am ∈ (image_callback lib now img self).1.2 →
         am_header am = out_header lib self info img).
Proof.
  intros Hinfo. unfold image_callback. rewrite Hinfo.
  destruct (detectMarkers lib (imgmsg_to_cv2 lib img)) as [corners [ids |]];
    [| split; intros m Hin; by apply elem_of_nil in Hin].
  destruct (pose_vectors lib self corners) as [rvecs tvecs].
  destruct (marker_loop lib rvecs tvecs 0 ids (mkLoop (pose_history self) [] [] []))
    as [s [e |]]; simpl;
    [split; intros m Hin; by apply elem_of_nil in Hin|].
  split; intros m Hin.
  - apply elem_of_cons in Hin as [Hin | Hin];
      [| by apply list_elem_of_singleton in Hin].
    by injection Hin as ->.
  - apply elem_of_cons in Hin as [Hin | Hin]; [done|].
    apply list_elem_of_singleton in Hin. by injection Hin as ->.
Qed.

Lemma published_header_witness :
  ∃ pa am, Demo.run.1.2 = [PublishPoses pa; PublishMarkers am] ∧
           pa_header pa = mkHeader 7%Z "camera".
Proof.
  eexists _, _. split; [by vm_compute|].
  apply (published_header (Demo.libs true) 9%Z (Demo.frame [2%Z; 1%Z])
           Demo.ready Demo.info); [reflexivity|].
  change (image_callback (Demo.libs true) 9%Z (Demo.frame [2%Z; 1%Z]) Demo.ready)
    with Demo.run.
  vm_compute. apply list_elem_of_here.
Defined.

(** X7: [image_callback] changes nothing of the node but the pose history
    and [last_publish_time]; the latter becomes the clock reading of the
    call when camera info is present, also when nothing is detected or the
    call raises, and is left alone when the frame is dropped. *)
Theorem image_callback_frame_rule (lib : Libs) (now : Time) (img : Image lib)
    (self : ArucoNode) :
  let self' := (image_callback lib now img self).1.1 in
  marker_size self' = marker_size self ∧
  camera_frame self' = camera_frame self ∧
  info_sub self' = info_sub self ∧
  info_msg self' = info_msg self ∧
  intrinsic_mat self' = intrinsic_mat self ∧
  distortion self' = distortion self ∧
  last_publish_time self'
  = match info_msg self with
    | Some _ => now
    | None => last_publish_time self
    end.
Proof.
  unfold image_callback.
  destruct (info_msg self) as [info |] eqn:Hinfo; [|simpl; by rewrite Hinfo].
  destruct (detectMarkers lib (imgmsg_to_cv2 lib img)) as [corners [ids |]];
    [|simpl; by rewrite Hinfo].
  destruct (pose_vectors lib self corners) as [rvecs tvecs].
  destruct (marker_loop lib rvecs tvecs 0 ids (mkLoop (pose_history self) [] [] []))
    as [s [e |]]; simpl; by rewrite Hinfo.
Qed.

(** X8: with an OpenCV whose version string compares above "4.0.0" and a
    detector that returns a corner set for every id it reports, no run of
    the node ever raises. *)
Theorem spin_never_raises (lib : Libs) (ms : list (Incoming lib)) (self : ArucoNode) :
  String.ltb "4.0.0" (cv2_version lib) = true →
  (∀ cv_image corners ids,
     detectMarkers lib cv_image = (corners, Some ids) →
     (length ids ≤ length corners)%nat) →
  (spin lib ms self).2 = None.
Proof.
  intros Hver Hdet. revert self.
  induction ms as [| m ms IH]; intros self; simpl; [done|].
  assert (Hone : (deliver lib m self).2 = None).
  { destruct m as [msg | now img]; simpl; [by destruct (info_sub self)|].
    unfold image_callback.
    destruct (info_msg self) as [info |]; [|done].
    destruct (detectMarkers lib (imgmsg_to_cv2 lib img)) as [corners [ids |]] eqn:Hd;
      [|done].
    apply Hdet in Hd.
    pose proof (solve_all_length lib self corners) as [Hr Ht].
    unfold pose_vectors. rewrite Hver.
    destruct (solve_all lib self corners) as [rvecs tvecs]. simpl in Hr, Ht.
    pose proof (marker_loop_returns lib rvecs tvecs ids 0
                  (mkLoop (pose_history self) [] [] [])) as Hret.
    destruct (marker_loop lib rvecs tvecs 0 ids (mkLoop (pose_history self) [] [] []))
      as [s r]. simpl in Hret. rewrite Hret by lia. done. }
  destruct (deliver lib m self) as [[self' out] r]. simpl in Hone. subst r.
  specialize (IH self').
  by destruct (spin lib ms self') as [[self'' out'] r].
Qed.

Lemma spin_never_raises_witness :
  (spin (Demo.libs true)
        (Demo.before ++ InInfo (Demo.libs true) Demo.info :: Demo.after)
        Demo.fresh).2 = None.
Proof.
  apply spin_never_raises; [reflexivity|].
  intros cv_image corners ids Hd. simpl in Hd.
  destruct cv_image as [| c cs]; [discriminate|].
  injection Hd as <- <-. simpl. lia.
Defined.

(** X9: in the Ready state, a detection of id 1 at an index for which
    [rvecs] or [tvecs] has no element ends the callback with [IndexError];
    nothing is published for the frame. *)
Theorem image_callback_index_error (lib : Libs) (now : Time) (img : Image lib)
    (self : ArucoNode) (info : CameraInfo) (corners : list (Corner lib))
    (ids : list Z) (j : nat) :
  info_msg self = Some info →
  detectMarkers lib (imgmsg_to_cv2 lib img) = (corners, Some ids) →
  ids !! j = Some 1%Z →
  (length (pose_vectors lib self corners).2 ≤ j
   ∨ length (pose_vectors lib self corners).1 ≤ j)%nat →
  (image_callback lib now img self).1.2 = [] ∧
  (image_callback lib now img self).2 = Some IndexError.
Proof.
  intros Hinfo Hdet Hj Hshort. unfold image_callback. rewrite Hinfo, Hdet.
  destruct (pose_vectors lib self corners) as [rvecs tvecs]. simpl in Hshort.
  pose proof (marker_loop_index_error lib rvecs tvecs ids j 0
                (mkLoop (pose_history self) [] [] []) Hj Hshort) as Herr.
  destruct (marker_loop lib rvecs tvecs 0 ids (mkLoop (pose_history self) [] [] []))
    as [s r]. simpl in Herr. by subst r.
Qed.

Lemma image_callback_index_error_witness :
  (image_callback Legacy.libs 9%Z (Demo.frame [2%Z; 1%Z]) Demo.ready).1.2 = [] ∧
  (image_callback Legacy.libs 9%Z (Demo.frame [2%Z; 1%Z]) Demo.ready).2
  = Some IndexError.
Proof.
  apply (image_callback_index_error Legacy.libs 9%Z (Demo.frame [2%Z; 1%Z])
           Demo.ready Demo.info [2%Z; 1%Z] [2%Z; 1%Z] 1);
    [reflexivity | reflexivity | reflexivity | left; vm_compute; lia].
Defined.

(** X10: the version test [cv2.__version__ > "4.0.0"] compares strings
    character by character: a version whose first character is below '4'
    (as in "3.4.0", and as in "10.0.0") takes the pose vectors from
    [estimatePoseSingleMarkers], and one whose first character is above '4'
    takes them from the [solvePnP] loop, whatever follows. *)
Theorem pose_vectors_by_first_character (lib : Libs) (self : ArucoNode)
    (corners : list (Corner lib)) (c : ascii) (v : string) :
  cv2_version lib = String c v →
  (Ascii.ltb c "4"%char = true →
   pose_vectors lib self corners
   = estimatePoseSingleMarkers lib corners (marker_size self)
       (intrinsic_mat self) (distortion self)) ∧
  (Ascii.ltb "4"%char c = true →
   pose_vectors lib self corners = solve_all lib self corners).
Proof.
  intros Hver. unfold pose_vectors. rewrite Hver.
  unfold String.ltb. simpl. unfold Ascii.ltb.
  split; intros Hc.
  - rewrite (Ascii.compare_antisym "4"%char c).
    by destruct (Ascii.compare c "4"%char).
  - by destruct (Ascii.compare "4"%char c).
Qed.

Lemma pose_vectors_by_first_character_witness :
  pose_vectors Legacy.libs10 Demo.ready [2%Z; 1%Z] = ([], []).
Proof.
  apply (pose_vectors_by_first_character Legacy.libs10 Demo.ready [2%Z; 1%Z]
           "1"%char "0.0.0"); reflexivity.
Defined.

(** X11: in the Ready state, for a frame with detections and a pose
    vector for each, the published poses are, in order, the smoothed
    contents of the buffer of marker 1 after each push of the frame: one
    pose per detection of id 1, each computed from the window as it stands
    right after that detection's raw pose went in. *)
Theorem published_poses_follow_windows (lib : Libs) (now : Time) (img : Image lib)
    (self : ArucoNode) (info : CameraInfo) (corners : list (Corner lib))
    (ids : list Z) :
  info_msg self = Some info →
  detectMarkers lib (imgmsg_to_cv2 lib img) = (corners, Some ids) →
  (length ids ≤ length (pose_vectors lib self corners).1)%nat →
  (length ids ≤ length (pose_vectors lib self corners).2)%nat →
  ∃ self' pa am,
    image_callback lib now img self
    = (self', [PublishPoses pa; PublishMarkers am], None) ∧
    map inr (pa_poses pa)
    = map smooth (windows (history_get (pose_history self) 1%Z)
                    (pushed_entries lib (pose_vectors lib self corners).1
                                    (pose_vectors lib self corners).2 ids)).
Proof.
  intros Hinfo Hdet Hr Ht. unfold image_callback. rewrite Hinfo, Hdet.
  destruct (pose_vectors lib self corners) as [rvecs tvecs]. simpl in Hr, Ht |- *.
  pose proof (marker_loop_returns lib rvecs tvecs ids 0
                (mkLoop (pose_history self) [] [] []) Hr Ht) as Hnone.
  pose proof (marker_loop_poses lib rvecs tvecs ids 0
                (mkLoop (pose_history self) [] [] []) Hr Ht) as Hposes.
  destruct (marker_loop lib rvecs tvecs 0 ids (mkLoop (pose_history self) [] [] []))
    as [s r]. simpl in Hnone, Hposes. subst r.
  eexists _, _, _. split; [done|]. simpl. by rewrite Hposes.
Qed.

Lemma published_poses_follow_windows_witness :
  ∃ self' pa am,
    Demo.run = (self', [PublishPoses pa; PublishMarkers am], None) ∧
    map inr (pa_poses pa) = map smooth (windows [] [Demo.raw]).
Proof.
  apply (published_poses_follow_windows (Demo.libs true) 9%Z
           (Demo.frame [2%Z; 1%Z]) Demo.ready Demo.info [2%Z; 1%Z] [2%Z; 1%Z]);
    [reflexivity | reflexivity | vm_compute; lia | vm_compute; lia].
Defined.

Section RunInvariant.
Context (lib : Libs).

(** Either nothing of the calibration is set, the subscription exists and
    the history is empty, or one message calibrates the node. *)
Lemma deliver_calibration_state (t0 : Time) (m : Incoming lib) (self : ArucoNode) :
  (info_msg self = None ∧ intrinsic_mat self = None ∧ distortion self = None ∧
   info_sub self = true ∧ pose_history self = ∅ ∧ last_publish_time self = t0)
  ∨ (∃ msg, calibrated_by msg self) →
  let self' := (deliver lib m self).1.1 in
  (info_msg self' = None ∧ intrinsic_mat self' = None ∧ distortion self' = None ∧
   info_sub self' = true ∧ pose_history self' = ∅ ∧ last_publish_time self' = t0)
  ∨ (∃ msg, calibrated_by msg self').
Proof.
  intros [(Hi & Hk & Hd & Hs & Hh & Ht) | [msg Hc]].
  - destruct m as [msg' | now img]; simpl.
    + rewrite Hs. simpl. right. exists msg'. by repeat split.
    + rewrite image_callback_no_info by done. simpl. by left.
  - right. exists msg. by apply deliver_calibrated.
Qed.

End RunInvariant.

(** X12: however the node runs from its construction, it is in one of two
    states: nothing of the calibration is stored, the camera-info
    subscription exists, the history is empty and [last_publish_time] is
    still the construction time; or the stored message, intrinsic matrix
    and distortion coefficients all come from one camera-info message and
    the subscription is gone.  So [solvePnP] is never given a missing
    matrix or missing coefficients, and no marker is tracked before the
    calibration. *)
Theorem spin_calibration_state (lib : Libs) (size : R) (frame : string) (t0 : Time)
    (ms : list (Incoming lib)) :
  let self := (spin lib ms (init size frame t0)).1.1 in
  (info_msg self = None ∧ intrinsic_mat self = None ∧ distortion self = None ∧
   info_sub self = true ∧ pose_history self = ∅ ∧ last_publish_time self = t0)
  ∨ (∃ msg, calibrated_by msg self).
Proof.
  assert (Hgen : ∀ start,
            (info_msg start = None ∧ intrinsic_mat start = None ∧
             distortion start = None ∧ info_sub start = true ∧
             pose_history start = ∅ ∧ last_publish_time start = t0)
            ∨ (∃ msg, calibrated_by msg start) →
            let self := (spin lib ms start).1.1 in
            (info_msg self = None ∧ intrinsic_mat self = None ∧
             distortion self = None ∧ info_sub self = true ∧
             pose_history self = ∅ ∧ last_publish_time self = t0)
            ∨ (∃ msg, calibrated_by msg self)).
  { induction ms as [| m ms IH]; intros start Hstart; simpl; [done|].
    pose proof (deliver_calibration_state lib t0 m start Hstart) as Hnext.
    destruct (deliver lib m start) as [[self' out] [e |]]; simpl in *; [done|].
    specialize (IH self' Hnext).
    by destruct (spin lib ms self') as [[self'' out'] r]. }
  apply Hgen. left. by repeat split.
Qed.

(** X13: in every run of the node, each published [PoseArray] is followed
    immediately by an [ArucoMarkers] message with the same poses and the
    same header, holding as many ids as poses. *)
Theorem spin_messages_paired (lib : Libs) (ms : list (Incoming lib))
    (self : ArucoNode) (out1 out2 : list Effect) (pa : PoseArray) :
  (spin lib ms self).1.2 = out1 ++ PublishPoses pa :: out2 →
  ∃ am out3, out2 = PublishMarkers am :: out3 ∧
             pa_poses pa = am_poses am ∧ pa_header pa = am_header am ∧
             length (am_marker_ids am) = length (am_poses am).
Proof.
  revert self out1 out2 pa.
  induction ms as [| m ms IH]; intros self out1 out2 pa Hout; simpl in Hout.
  { by destruct out1. }
  assert (Hshape : (deliver lib m self).1.2 = [] ∨
                   (∃ w, (deliver lib m self).1.2 = [LogWarn w]) ∨
                   ∃ pa' am', (deliver lib m self).1.2
                              = [PublishPoses pa'; PublishMarkers am'] ∧
                     pa_poses pa' = am_poses am' ∧ pa_header pa' = am_header am' ∧
                     length (am_marker_ids am') = length (am_poses am')).
  { destruct m as [msg | now img]; simpl; [by destruct (info_sub self); left|].
    destruct (image_callback_effects lib now img self)
      as [-> | [-> | (pa' & am' & -> & Hh & Hp & Hl & _)]];
      [by left | right; left; by eexists | right; right].
    by exists pa', am'. }
  destruct (deliver lib m self) as [[self' out] r]. simpl in Hshape.
  destruct r as [e |].
  - simpl in Hout.
    destruct Hshape as [-> | [[w ->] | (pa' & am' & -> & Hp & Hh & Hl)]].
    + by destruct out1.
    + destruct out1 as [| x [| y out1]]; done.
    + destruct out1 as [| x [| y [| z out1]]]; try done.
      injection Hout as <- <-. by exists am', [].
  - specialize (IH self').
    destruct (spin lib ms self') as [[self'' out'] r]. simpl in Hout, IH.
    destruct Hshape as [-> | [[w ->] | (pa' & am' & -> & Hp & Hh & Hl)]].
    + by apply (IH out1).
    + destruct out1 as [| x out1]; [done|].
      injection Hout as _ Hout. by apply (IH out1).
    + destruct out1 as [| x [| y out1]].
      * injection Hout as <- <-. by exists am', out'.
      * done.
      * injection Hout as _ _ Hout. by apply (IH out1).
Qed.

Lemma spin_messages_paired_witness :
  ∃ pa am out3,
    (spin (Demo.libs true) [InImage (Demo.libs true) 9%Z (Demo.frame [2%Z; 1%Z])]
          Demo.ready).1.2
    = [] ++ PublishPoses pa :: PublishMarkers am :: out3 ∧
    pa_poses pa = am_poses am ∧ pa_header pa = am_header am ∧
    length (am_marker_ids am) = length (am_poses am).
Proof.
  destruct (image_callback_publishes (Demo.libs true) 9%Z (Demo.frame [2%Z; 1%Z])
              Demo.ready Demo.info [2%Z; 1%Z] [2%Z; 1%Z] eq_refl eq_refl)
    as (self' & pa & am & Hrun & _); [vm_compute; lia | vm_compute; lia |].
  assert (Hspin : (spin (Demo.libs true)
                     [InImage (Demo.libs true) 9%Z (Demo.frame [2%Z; 1%Z])]
                     Demo.ready).1.2
                  = [] ++ PublishPoses pa :: [PublishMarkers am]).
  { cbn [spin deliver]. by rewrite Hrun. }
  destruct (spin_messages_paired _ _ _ _ _ _ Hspin) as (am' & out3 & Hout & Hrest).
  injection Hout as <- <-. by exists pa, am, [].
Defined.

(** ** [__init__] *)

(** X14: when the [aruco_dictionary_id] parameter names no attribute of
    [cv2.aruco], [__init__] logs the bad id and the valid options and then
    fails with [UnboundLocalError] where it reads [dictionary_id]: no node
    is constructed, whatever the other parameters are. *)
Theorem node_init_unknown_dictionary (ar : ArucoModule) (p : Params) (now : Time) :
  getattribute (attributes ar) (p_aruco_dictionary_id p) = None →
  (node_init ar p now).2 = inl UnboundLocalError ∧
  drop 4 (node_init ar p now).1
  = [ Error ("bad aruco_dictionary_id: " ++ p_aruco_dictionary_id p);
      Error ("valid options: " ++ dictionary_options ar) ].
Proof.
  intros Hnone. unfold node_init, check_dictionary. by rewrite Hnone.
Qed.

Lemma node_init_unknown_dictionary_witness :
  (node_init Aruco.module
     (mkParams (1 / 16) "DICT_9X9" "/camera/image_raw" "/camera/camera_info" "")
     0%Z).2 = inl UnboundLocalError.
Proof.
  apply (node_init_unknown_dictionary Aruco.module
           (mkParams (1 / 16) "DICT_9X9" "/camera/image_raw" "/camera/camera_info" "")
           0%Z).
  reflexivity.
Defined.

(** X15: [__init__] constructs a node exactly when the parameter names an
    attribute of [cv2.aruco] whose value [getPredefinedDictionary] accepts;
    the type test only decides whether the two errors are logged.  The node
    it constructs has the two parameters it keeps, the construction time,
    no calibration, a live camera-info subscription and an empty
    history. *)
Theorem node_init_constructs (ar : ArucoModule) (p : Params) (now : Time)
    (node : ArucoNode) :
  (node_init ar p now).2 = inr node ↔
  (∃ v, getattribute (attributes ar) (p_aruco_dictionary_id p) = Some v ∧
        is_Some (getPredefinedDictionary ar v)) ∧
  node = mkNode (p_marker_size p) (p_camera_frame p) true None None None ∅ now.
Proof.
  unfold node_init, check_dictionary.
  destruct (getattribute (attributes ar) (p_aruco_dictionary_id p)) as [v |].
  - assert (Hgo : ∀ logs : list InitLog,
              (match getPredefinedDictionary ar v with
               | Some _ => (logs, inr (init (p_marker_size p) (p_camera_frame p) now))
               | None => (logs, inl Cv2Error)
               end).2 = inr node ↔
              (∃ v', Some v = Some v' ∧ is_Some (getPredefinedDictionary ar v')) ∧
              node = mkNode (p_marker_size p) (p_camera_frame p) true
                            None None None ∅ now).
    { intros logs. destruct (getPredefinedDictionary ar v) as [dict |] eqn:Hd; simpl.
      - split.
        + intros [= <-]. split; [|done]. exists v. rewrite Hd. by split.
        + by intros [_ ->].
      - split; [done|]. intros [(v' & [= <-] & Hsome) _].
        rewrite Hd in Hsome. by destruct Hsome. }
    destruct (getattribute (attributes ar) "DICT_5X5_100") as [reference |];
      apply Hgo.
  - simpl. split; [done|]. by intros [(v & Hv & _) _].
Qed.

Lemma node_init_constructs_witness :
  (node_init Aruco.module default_params 0%Z).2
  = inr (mkNode (625 / 10000) "" true None None None ∅ 0%Z).
Proof.
  apply (node_init_constructs Aruco.module default_params 0%Z). split; [|done].
  exists (PyInt 6). split; [reflexivity | by eexists].
Defined.

(** ** Frames that show marker 1 once *)

Section Sightings.
Context (lib : Libs).

(** One frame with a single detection, of id 1, under a recent OpenCV. *)
Lemma image_callback_sighting (now : Time) (img : Image lib) (self : ArucoNode)
    (info : CameraInfo) (corner : Corner lib) :
  info_msg self = Some info →
  String.ltb "4.0.0" (cv2_version lib) = true →
  detectMarkers lib (imgmsg_to_cv2 lib img) = ([corner], Some [1%Z]) →
  ∃ pose,
    smooth (deque_append window_size (history_get (pose_history self) 1%Z)
                         (raw_entry lib self corner)) = inr pose ∧
    image_callback lib now img self
    = (set_history self now
         (history_append (pose_history self) 1%Z (raw_entry lib self corner)),
       [ PublishPoses (mkPoseArray (out_header lib self info img) [pose]);
         PublishMarkers (mkArucoMarkers (out_header lib self info img) [1%Z] [pose]) ],
       None).
Proof.
  intros Hinfo Hver Hdet. unfold image_callback, pose_vectors, solve_all, raw_entry.
  rewrite Hinfo, Hdet, Hver. simpl.
  destruct (solvePnP lib (obj_points (marker_size self)) corner
              (intrinsic_mat self) (distortion self)) as [[retval rvec] tvec].
  simpl.
  destruct (smooth_after_append (pose_history self) 1%Z
              (tvec, quaternion_from_matrix lib (Rodrigues lib rvec)))
    as [pose Hpose].
  rewrite Hpose. rewrite history_get_append_eq in Hpose. by exists pose.
Qed.

Lemma deque_append_twice {A : Type} (d : list A) (x y : A) :
  (length d ≤ window_size)%nat →
  deque_append window_size (deque_append window_size d x) y = [x; y].
Proof.
  unfold window_size. intros Hd.
  destruct d as [| a [| b [| c d]]]; simpl in *; try done. lia.
Qed.

End Sightings.

(** X16: in the Ready state, under an OpenCV above "4.0.0", a frame in
    which the detector reports exactly one marker, of id 1, appends the
    marker's raw pose to the buffer of marker 1 and publishes both
    messages with one pose, the smoothing of that buffer, labelled 1. *)
Theorem image_callback_single_sighting (lib : Libs) (now : Time) (img : Image lib)
    (self : ArucoNode) (info : CameraInfo) (corner : Corner lib) :
  info_msg self = Some info →
  String.ltb "4.0.0" (cv2_version lib) = true →
  detectMarkers lib (imgmsg_to_cv2 lib img) = ([corner], Some [1%Z]) →
  ∃ pose,
    smooth (deque_append window_size (history_get (pose_history self) 1%Z)
                         (raw_entry lib self corner)) = inr pose ∧
    image_callback lib now img self
    = (set_history self now
         (history_append (pose_history self) 1%Z (raw_entry lib self corner)),
       [ PublishPoses (mkPoseArray (out_header lib self info img) [pose]);
         PublishMarkers (mkArucoMarkers (out_header lib self info img) [1%Z] [pose]) ],
       None).
Proof.
  intros Hinfo Hver Hdet.
  assert (Hone : pose_vectors lib self [corner]
                 = ([(solvePnP lib (obj_points (marker_size self)) corner
                        (intrinsic_mat self) (distortion self)).1.2],
                    [(solvePnP lib (obj_points (marker_size self)) corner
                        (intrinsic_mat self) (distortion self)).2])).
  { unfold pose_vectors. by rewrite Hver. }
  unfold image_callback. rewrite Hinfo, Hdet, Hone. unfold raw_entry.
  destruct (solvePnP lib (obj_points (marker_size self)) corner
              (intrinsic_mat self) (distortion self)) as [[retval rvec] tvec].
  cbn [marker_loop fst snd lookup list_lookup]. simpl.
  destruct (smooth_after_append (pose_history self) 1%Z
              (tvec, quaternion_from_matrix lib (Rodrigues lib rvec)))
    as [pose Hpose].
  rewrite Hpose. rewrite history_get_append_eq in Hpose. by exists pose.
Qed.

Lemma image_callback_single_sighting_witness :
  ∃ pose,
    smooth (deque_append window_size (history_get (pose_history Demo.ready) 1%Z)
              (raw_entry (Demo.libs true) Demo.ready 1%Z)) = inr pose ∧
    image_callback (Demo.libs true) 9%Z (Demo.frame [1%Z]) Demo.ready
    = (set_history Demo.ready 9%Z
         (history_append (pose_history Demo.ready) 1%Z
            (raw_entry (Demo.libs true) Demo.ready 1%Z)),
       [ PublishPoses
           (mkPoseArray (out_header (Demo.libs true) Demo.ready Demo.info
                           (Demo.frame [1%Z])) [pose]);
         PublishMarkers
           (mkArucoMarkers (out_header (Demo.libs true) Demo.ready Demo.info
                              (Demo.frame [1%Z])) [1%Z] [pose]) ],
       None).
Proof.
  apply (image_callback_single_sighting (Demo.libs true) 9%Z (Demo.frame [1%Z])
           Demo.ready Demo.info 1%Z); reflexivity.
Defined.

(** X17: the node remembers two sightings and no more.  After two frames
    that each show marker 1 once (Ready state, OpenCV above "4.0.0"), the
    buffer of marker 1 holds exactly the raw poses of these two frames, and
    the pose published with the second frame is the smoothing of these two
    raw poses, whatever the buffer held before. *)
Theorem two_sightings (lib : Libs) (self : ArucoNode) (info : CameraInfo)
    (now1 now2 : Time) (img1 img2 : Image lib) (c1 c2 : Corner lib) :
  info_msg self = Some info →
  String.ltb "4.0.0" (cv2_version lib) = true →
  (length (history_get (pose_history self) 1%Z) ≤ window_size)%nat →
  detectMarkers lib (imgmsg_to_cv2 lib img1) = ([c1], Some [1%Z]) →
  detectMarkers lib (imgmsg_to_cv2 lib img2) = ([c2], Some [1%Z]) →
  let self1 := (image_callback lib now1 img1 self).1.1 in
  let second := image_callback lib now2 img2 self1 in
  history_get (pose_history second.1.1) 1%Z
  = [raw_entry lib self c1; raw_entry lib self c2] ∧
  ∃ pose,
    smooth [raw_entry lib self c1; raw_entry lib self c2] = inr pose ∧
    second.1.2
    = [ PublishPoses (mkPoseArray (out_header lib self info img2) [pose]);
        PublishMarkers (mkArucoMarkers (out_header lib self info img2) [1%Z] [pose]) ].
Proof.
  intros Hinfo Hver Hlen Hd1 Hd2 self1 second.
  destruct (image_callback_sighting lib now1 img1 self info c1 Hinfo Hver Hd1)
    as (pose1 & _ & Hfirst).
  assert (Hself1 : self1 = set_history self now1
                     (history_append (pose_history self) 1%Z (raw_entry lib self c1)))
    by (unfold self1; by rewrite Hfirst).
  assert (Hinfo1 : info_msg self1 = Some info) by (by rewrite Hself1).
  destruct (image_callback_sighting lib now2 img2 self1 info c2 Hinfo1 Hver Hd2)
    as (pose2 & Hsmooth & Hsecond).
  assert (Hraw : raw_entry lib self1 c2 = raw_entry lib self c2)
    by (by rewrite Hself1).
  assert (Hhdr : out_header lib self1 info img2 = out_header lib self info img2)
    by (by rewrite Hself1).
  assert (Hwin : deque_append window_size (history_get (pose_history self1) 1%Z)
                   (raw_entry lib self c2)
                 = [raw_entry lib self c1; raw_entry lib self c2]).
  { rewrite Hself1. simpl. rewrite history_get_append_eq.
    by apply deque_append_twice. }
  rewrite Hraw, Hhdr in Hsecond. rewrite Hraw, Hwin in Hsmooth.
  unfold second. rewrite Hsecond. simpl. split.
  - by rewrite history_get_append_eq.
  - by exists pose2.
Qed.

Lemma two_sightings_witness :
  history_get
    (pose_history
       (image_callback (Demo.libs true) 10%Z (Demo.frame [1%Z])
          (image_callback (Demo.libs true) 9%Z (Demo.frame [1%Z]) Demo.ready).1.1).1.1)
    1%Z
  = [raw_entry (Demo.libs true) Demo.ready 1%Z;
     raw_entry (Demo.libs true) Demo.ready 1%Z].
Proof.
  apply (two_sightings (Demo.libs true) Demo.ready Demo.info 9%Z 10%Z
           (Demo.frame [1%Z]) (Demo.frame [1%Z]) 1%Z 1%Z);
    [reflexivity | reflexivity | vm_compute; lia | reflexivity | reflexivity].
Defined.
